(** * twitchrise-bot: the live-state reconciliation loop of [bot.py]

    A shallow embedding of [bot.py]: the three process-wide dictionaries
    ([live_status], [user_ids_cache], [watchlists]) and the watchlist file
    are the fields of an explicit [state]; every function of the script is a
    computation in a small state / exception / output monad, so that a Python
    exception leaves the mutations made so far in place, exactly as in the
    source.  Whatever the script sends to the outside (log lines, replies,
    notifications, HTTP requests, file writes) is recorded, in program order,
    as a list of [event]s.

    The Twitch API is an oracle ([upstream]) that answers each request either
    with parsed data or with an exception.  The monitor thread and the
    command handlers are interleaved at the granularity of one whole cycle or
    one whole handler call; a handler that overlaps a cycle in flight is
    outside this model.

    Conventions.
    - Dictionaries are [gmap]s.  A loop over [d.items()] or [d.values()]
      visits [map_to_list d]: every key once, in the order of [gmap] and not
      in Python's insertion order.  The statements below speak of which
      events occur, never of the order in which two subscribers are served.
    - [print], [json.dump] to the watchlist file, [reply_text] and
      [Apprise.notify] are taken to return normally; [requests] is the one
      source of exceptions, through the oracle. *)

From stdpp Require Import base option list gmap strings fin_maps.
From Stdlib Require Import ZArith.

Set Default Proof Using "Type".

(** ** Python's [str] methods used by the script *)

(** [u.lower()], [text.strip()] and [int(arg)] (with [None] for
    [ValueError]).  The development is parametric in them. *)
Class PyStr := {
  lower : string → string;
  strip : string → string;
  py_int : string → option Z
}.

(** ** Data *)

(** One value of [watchlists]:
    [{"channels": [...], "apprise_urls": [...]}].  Both keys are present in
    every entry that the script creates, so that [data.get("channels", [])]
    and [data["channels"]] are the same field. *)
Record entry := Entry {
  channels : list string;
  apprise_urls : list string
}.

(** One element of ["data"] in the answer of [helix/users]; [u_id] is its
    ["id"] field. *)
Record user := User {
  login : string;
  u_id : string
}.

(** One element of ["data"] in the answer of [helix/streams]. *)
Record stream := Stream {
  user_id : string;
  title : string;
  game_name : string;
  viewer_count : Z
}.

(** The [headers] dictionary built from the client id and the token. *)
Record headers := Headers {
  client_id : string;
  authorization : string
}.

(** Exceptions: those raised by [requests] ([raise_for_status] included),
    [KeyError] for [d[k]] on a dictionary without [k], [IndexError] for
    [l.pop(i)] out of range. *)
Inductive exn :=
  | ConnectionError
  | HTTPError (status : nat)
  | KeyError (key : string)
  | IndexError.

Inductive response (A : Type) :=
  | Answer (a : A)
  | Failure (e : exn).
Arguments Answer {A} a.
Arguments Failure {A} e.

(** What Twitch answers during one cycle or one handler call. *)
Record upstream := Upstream {
  oauth2_token : response string;
  helix_users : headers → list string → response (list user);
  helix_streams : headers → list string → response (list stream)
}.

(** The globals of the script, and the contents of [WATCHLIST_FILE]
    ([None]: the file does not exist). *)
Record state := State {
  live_status : gmap string bool;
  user_ids_cache : gmap string string;
  watchlists : gmap string entry;
  watchlist_file : option (gmap string entry)
}.

Definition set_live_status (f : gmap string bool → gmap string bool)
    (s : state) : state :=
  State (f (live_status s)) (user_ids_cache s) (watchlists s)
        (watchlist_file s).

Definition set_user_ids_cache (f : gmap string string → gmap string string)
    (s : state) : state :=
  State (live_status s) (f (user_ids_cache s)) (watchlists s)
        (watchlist_file s).

Definition set_watchlists (f : gmap string entry → gmap string entry)
    (s : state) : state :=
  State (live_status s) (user_ids_cache s) (f (watchlists s))
        (watchlist_file s).

Definition set_watchlist_file (w : gmap string entry) (s : state) : state :=
  State (live_status s) (user_ids_cache s) (watchlists s) (Some w).

(** ** Events *)

(** The three titles (and bodies) that [send_notification] is called with. *)
Inductive title_text :=
  | NowLive (username : string)
  | GoneOffline (username : string)
  | AlreadyLive (channel : string).

Inductive body_text :=
  | StreamBody (s : stream) (username : string)
  | OfflineBody (username : string).

(** One call of [send_notification]: the Telegram chat, the extra Apprise
    URLs that were added to the [Apprise] object, title and body. *)
Record notification := Notification {
  n_chat : string;
  n_extra : list string;
  n_title : title_text;
  n_body : body_text
}.

Inductive log_msg :=
  | LogMonitorStarted
  | LogRequestingToken
  | LogTokenReceived
  | LogFetchingIds (to_fetch : list string)
  | LogResolved (login id : string)
  | LogPolling
  | LogNotifiedLive (chat_id username : string)
  | LogNotifiedOffline (chat_id username : string)
  | LogMonitorError (e : exn)
  | LogStarted (name chat_id : string)
  | LogAdded (name chat_id channel : string)
  | LogImmediate (name chat_id channel : string)
  | LogLiveCheckFailed (e : exn)
  | LogRemoved (name chat_id channel : string)
  | LogSavedUrl (chat_id url : string)
  | LogRemovedUrl (chat_id url : string)
  | LogRequestedWatchlist (name chat_id : string) (chans : list string).

Inductive reply :=
  | Welcome
  | UsageAdd
  | Added (channel : string)
  | AlreadyInWatchlist (channel : string)
  | UsageRemove
  | Removed (channel : string)
  | NotInWatchlist (channel : string)
  | NoPendingUrl
  | SavedUrl
  | NotSaved
  | UsageRmApprise
  | InvalidNumber
  | NotANumber
  | RemovedUrl (url : string)
  | YourWatchlist (chans : list string)
  | EmptyWatchlist
  | YourAppriseUrls (urls : list string)
  | NoAppriseUrls.

Inductive request :=
  | PostToken
  | GetUsers (h : headers) (logins : list string)
  | GetStreams (h : headers) (ids : list string).

Inductive event :=
  | Log (m : log_msg)
  | Http (r : request)
  | Notify (n : notification)
  | Reply (chat_id : string) (r : reply)
  | Save (w : gmap string entry).

(** ** The monad *)

Inductive outcome (A : Type) :=
  | Ok (a : A)
  | Raise (e : exn).
Arguments Ok {A} a.
Arguments Raise {A} e.

(** A finished run: how it ended, the state it left, what it emitted. *)
Record run (A : Type) := Run {
  result : outcome A;
  final : state;
  emitted : list event
}.
Arguments Run {A} _ _ _.
Arguments result {A} _.
Arguments final {A} _.
Arguments emitted {A} _.

Definition M (A : Type) : Type := state → run A.

Definition ret {A} (a : A) : M A := λ s, Run (Ok a) s [].

(** Sequencing: the continuation runs from the state that [r] left, and
    only if [r] ended normally; the events add up. *)
Definition then_run {A B} (r : run A) (f : A → M B) : run B :=
  match result r with
  | Ok a =>
      let r' := f a (final r) in
      Run (result r') (final r') (emitted r ++ emitted r')
  | Raise e => Run (Raise e) (final r) (emitted r)
  end.

Definition bind {A B} (m : M A) (f : A → M B) : M B := λ s,
  then_run (m s) f.

(** [evs] were emitted before the run [r]. *)
Definition prepend {A} (evs : list event) (r : run A) : run A :=
  Run (result r) (final r) (evs ++ emitted r).

Definition raise {A} (e : exn) : M A := λ s, Run (Raise e) s [].
Definition emit (ev : event) : M unit := λ s, Run (Ok ()) s [ev].
Definition gets {A} (f : state → A) : M A := λ s, Run (Ok (f s)) s [].
Definition modify (f : state → state) : M unit := λ s, Run (Ok ()) (f s) [].

(** [try: m  except Exception as e: h e] *)
Definition handle_run {A} (r : run A) (h : exn → M A) : run A :=
  match result r with
  | Ok a => r
  | Raise e =>
      let r' := h e (final r) in
      Run (result r') (final r') (emitted r ++ emitted r')
  end.

Definition try_except {A} (m : M A) (h : exn → M A) : M A := λ s,
  handle_run (m s) h.

#[export] Instance M_ret : MRet M := @ret.
#[export] Instance M_bind : MBind M := λ A B f m, bind m f.

(** [for x in l: body x] *)
Fixpoint for_each {A} (l : list A) (body : A → M unit) : M unit :=
  match l with
  | [] => ret ()
  | x :: l' => body x ;; for_each l' body
  end.

Definition log (m : log_msg) : M unit := emit (Log m).

(** A request: the outgoing call is recorded, then the oracle's answer is
    returned or its exception raised. *)
Definition http {A} (r : request) (a : response A) : M A :=
  emit (Http r) ;;
  match a with
  | Answer v => ret v
  | Failure e => raise e
  end.

(** ** File utilities *)

Definition load_watchlists (file : option (gmap string entry))
    : gmap string entry :=
  match file with
  | None => ∅
  | Some w => w
  end.

Definition save_watchlists (watchlists_data : gmap string entry) : M unit :=
  emit (Save watchlists_data) ;;
  modify (set_watchlist_file watchlists_data).

(** The globals when the script has been loaded: empty snapshot, empty
    cache, [watchlists = load_watchlists()]. *)
Definition startup (file : option (gmap string entry)) : state :=
  State ∅ ∅ (load_watchlists file) file.

(** ** Twitch API utilities *)

Definition get_app_token (up : upstream) : M string :=
  log LogRequestingToken ;;
  token ← http PostToken (oauth2_token up);
  log LogTokenReceived ;;
  ret token.

(** [{u: user_ids_cache.get(u) for u in usernames if u in user_ids_cache}] *)
Definition cached_ids (cache : gmap string string) (usernames : list string)
    : gmap string string :=
  foldl (λ m u, match cache !! u with
                | Some i => <[u := i]> m
                | None => m
                end) ∅ usernames.

(** Lines 74-76: the loop that fills the cache from the answer. *)
Definition store_loop (data : list user) : M unit :=
  for_each data (λ user,
    modify (set_user_ids_cache (<[login user := u_id user]>)) ;;
    log (LogResolved (login user) (u_id user))).

Section twitch.
Context `{PyStr}.

Definition get_user_ids (up : upstream) (h : headers)
    (usernames : list string) : M (gmap string string) :=
  let usernames := lower <$> usernames in
  cache ← gets user_ids_cache;
  let to_fetch := filter (λ u, u ∉ dom cache) usernames in
  (if bool_decide (to_fetch = []) then ret ()
   else
     log (LogFetchingIds to_fetch) ;;
     data ← http (GetUsers h to_fetch) (helix_users up h to_fetch);
     store_loop data) ;;
  cache ← gets user_ids_cache;
  ret (cached_ids cache usernames).

End twitch.

(** [{stream['user_id']: stream for stream in data}]: a later record
    overrides an earlier one with the same [user_id]. *)
Definition by_user_id (data : list stream) : gmap string stream :=
  foldl (λ m s, <[user_id s := s]> m) ∅ data.

Definition get_live_streams (up : upstream) (h : headers)
    (user_ids : list string) : M (gmap string stream) :=
  if bool_decide (user_ids = []) then ret ∅
  else
    data ← http (GetStreams h user_ids) (helix_streams up h user_ids);
    ret (by_user_id data).

(** ** Notification utility *)

(** [watchlists.get(chat_id, {}).get("apprise_urls", [])] *)
Definition extra_urls_of (w : gmap string entry) (chat_id : string)
    : list string :=
  match w !! chat_id with
  | Some data => apprise_urls data
  | None => []
  end.

Definition send_notification (chat_id : string) (t : title_text)
    (b : body_text) : M unit :=
  w ← gets watchlists;
  emit (Notify (Notification chat_id (extra_urls_of w chat_id) t b)).

(** ** Background Twitch monitor *)

(** [all_channels = set()] updated with every entry's channels. *)
Definition all_channels (w : gmap string entry) : gset string :=
  foldl (λ acc data, acc ∪ list_to_set (channels data)) ∅
        ((map_to_list w).*2).

(** [{uid: True for uid in live_data}] *)
Definition current_live_of (live_data : gmap string stream)
    : gmap string bool :=
  (λ _, true) <$> live_data.

(** [live_data[uid]] *)
Definition subscript {V} (d : gmap string V) (k : string) : M V :=
  match d !! k with
  | Some v => ret v
  | None => raise (KeyError k)
  end.

Section monitor.
Context `{PyStr}.

(** Lines 113-121: gather all channels, resolve them, poll the ids. *)
Definition resolve_and_poll (up : upstream) (h : headers)
    : M (gmap string string * gmap string stream) :=
  w ← gets watchlists;
  user_id_map ← get_user_ids up h (elements (all_channels w));
  live_data ← get_live_streams up h ((map_to_list user_id_map).*2);
  ret (user_id_map, live_data).

(** Lines 127-145: the body of the inner loop. *)
Definition check_channel (user_id_map : gmap string string)
    (live_data : gmap string stream) (current_live : gmap string bool)
    (chat_id username : string) : M unit :=
  match user_id_map !! lower username with
  | None => ret ()
  | Some uid =>
      if bool_decide (uid = "") then ret ()
      else
        ls ← gets live_status;
        let was_live := default false (ls !! uid) in
        let is_live := default false (current_live !! uid) in
        if is_live && negb was_live then
          s ← subscript live_data uid;
          send_notification chat_id (NowLive username)
                            (StreamBody s username) ;;
          log (LogNotifiedLive chat_id username)
        else if negb is_live && was_live then
          send_notification chat_id (GoneOffline username)
                            (OfflineBody username) ;;
          log (LogNotifiedOffline chat_id username)
        else ret ()
  end.

(** Lines 111-147: the body of [try]. *)
Definition cycle_body (up : upstream) (h : headers) : M unit :=
  log LogPolling ;;
  '(user_id_map, live_data) ← resolve_and_poll up h;
  let current_live := current_live_of live_data in
  w ← gets watchlists;
  for_each (map_to_list w) (λ '(chat_id, data),
    for_each (channels data)
             (check_channel user_id_map live_data current_live chat_id)) ;;
  modify (set_live_status (λ _, current_live)).

(** One iteration of [while True] ([time.sleep] apart). *)
Definition monitor_cycle (up : upstream) (h : headers) : M unit :=
  try_except (cycle_body up h) (λ e, log (LogMonitorError e)).

(** [monitor_twitch], run for as many iterations of [while True] as there
    are elements in [ticks]; each one brings what Twitch answers during that
    iteration.  [Ok ()] means that the loop is still running after them,
    [Raise e] that the thread has died with [e]. *)
Definition monitor_twitch (CLIENT_ID : string) (up0 : upstream)
    (ticks : list upstream) : M unit :=
  log LogMonitorStarted ;;
  token ← get_app_token up0;
  let h := Headers CLIENT_ID ("Bearer " +:+ token) in
  for_each ticks (λ up, monitor_cycle up h).

End monitor.

(** ** Telegram bot commands *)

(** What a handler reads from [update]: [str(update.effective_chat.id)] and
    the user's display name ([username or full_name]). *)
Record update := Update {
  chat_of : string;
  name_of : string
}.

Definition empty_entry : entry := Entry [] [].

(** [watchlists.setdefault(chat_id, {"channels": [], "apprise_urls": []})] *)
Definition setdefault (chat_id : string) (w : gmap string entry)
    : gmap string entry :=
  match w !! chat_id with
  | Some _ => w
  | None => <[chat_id := empty_entry]> w
  end.

(** [l.remove(x)]: drops the first occurrence. *)
Fixpoint list_remove_first (x : string) (l : list string) : list string :=
  match l with
  | [] => []
  | y :: l' => if bool_decide (y = x) then l' else y :: list_remove_first x l'
  end.

Definition say (u : update) (r : reply) : M unit := emit (Reply (chat_of u) r).

(** [if not url]: [None] and the empty string are falsy. *)
Definition truthy (o : option string) : option string :=
  match o with
  | Some s => if bool_decide (s = "") then None else Some s
  | None => None
  end.

Definition start (u : update) : M unit :=
  let chat_id := chat_of u in
  w ← gets watchlists;
  (if bool_decide (chat_id ∈ dom w) then ret ()
   else
     modify (set_watchlists (<[chat_id := empty_entry]>)) ;;
     w ← gets watchlists;
     save_watchlists w) ;;
  log (LogStarted (name_of u) chat_id) ;;
  say u Welcome.

Section handlers.
Context `{PyStr}.

(** Lines 190-208: the immediate live check of [add_channel]. *)
Definition live_check_on_add (CLIENT_ID : string) (up : upstream)
    (u : update) (channel : string) : M unit :=
  try_except
    (token ← get_app_token up;
     let h := Headers CLIENT_ID ("Bearer " +:+ token) in
     user_id_map ← get_user_ids up h [channel];
     match truthy (user_id_map !! channel) with
     | Some uid =>
         live_data ← get_live_streams up h [uid];
         match live_data !! uid with
         | Some s =>
             send_notification (chat_of u) (AlreadyLive channel)
                               (StreamBody s channel) ;;
             log (LogImmediate (name_of u) (chat_of u) channel) ;;
             modify (set_live_status (<[uid := true]>))
         | None => ret ()
         end
     | None => ret ()
     end)
    (λ e, log (LogLiveCheckFailed e)).

Definition add_channel (CLIENT_ID : string) (up : upstream) (u : update)
    (args : list string) : M unit :=
  let chat_id := chat_of u in
  match args with
  | [arg] =>
      let channel := lower arg in
      modify (set_watchlists (setdefault chat_id)) ;;
      w ← gets watchlists;
      data ← subscript w chat_id;
      if bool_decide (channel ∉ channels data) then
        modify (set_watchlists
                  (<[chat_id := Entry (channels data ++ [channel])
                                      (apprise_urls data)]>)) ;;
        w ← gets watchlists;
        save_watchlists w ;;
        log (LogAdded (name_of u) chat_id channel) ;;
        say u (Added channel) ;;
        live_check_on_add CLIENT_ID up u channel
      else say u (AlreadyInWatchlist channel)
  | _ => say u UsageAdd
  end.

Definition remove_channel (u : update) (args : list string) : M unit :=
  let chat_id := chat_of u in
  match args with
  | [arg] =>
      let channel := lower arg in
      w ← gets watchlists;
      match w !! chat_id with
      | Some data =>
          if bool_decide (channel ∈ channels data) then
            modify (set_watchlists
                      (<[chat_id := Entry (list_remove_first channel
                                                             (channels data))
                                          (apprise_urls data)]>)) ;;
            w ← gets watchlists;
            save_watchlists w ;;
            log (LogRemoved (name_of u) chat_id channel) ;;
            say u (Removed channel)
          else say u (NotInWatchlist channel)
      | None => say u (NotInWatchlist channel)
      end
  | _ => say u UsageRemove
  end.

Definition list_channels (u : update) : M unit :=
  w ← gets watchlists;
  let chans := match w !! chat_of u with
               | Some data => channels data
               | None => []
               end in
  log (LogRequestedWatchlist (name_of u) (chat_of u) chans) ;;
  if bool_decide (chans = []) then say u EmptyWatchlist
  else say u (YourWatchlist chans).

(** [confirm_apprise]: [text] is [update.message.text], [pending] is
    [context.user_data.get("pending_apprise_url")]. *)
Definition confirm_apprise (u : update) (text : string)
    (pending : option string) : M unit :=
  let chat_id := chat_of u in
  let answer := lower (strip text) in
  if bool_decide (answer ∈ ["yes"; "y"]) then
    match truthy pending with
    | None => say u NoPendingUrl
    | Some url =>
        modify (set_watchlists (setdefault chat_id)) ;;
        w ← gets watchlists;
        data ← subscript w chat_id;
        if bool_decide (url ∉ apprise_urls data) then
          modify (set_watchlists
                    (<[chat_id := Entry (channels data)
                                        (apprise_urls data ++ [url])]>)) ;;
          w ← gets watchlists;
          save_watchlists w ;;
          log (LogSavedUrl chat_id url) ;;
          say u SavedUrl
        else ret ()
    end
  else say u NotSaved.

Definition list_apprise (u : update) : M unit :=
  w ← gets watchlists;
  let urls := extra_urls_of w (chat_of u) in
  if bool_decide (urls = []) then say u NoAppriseUrls
  else say u (YourAppriseUrls urls).

Definition remove_apprise (u : update) (args : list string) : M unit :=
  let chat_id := chat_of u in
  w ← gets watchlists;
  let urls := extra_urls_of w chat_id in
  match args with
  | [arg] =>
      match py_int arg with
      | None => say u NotANumber
      | Some index =>
          if bool_decide (index < 1 ∨ index > Z.of_nat (length urls))%Z
          then say u InvalidNumber
          else
            let i := Z.to_nat (index - 1) in
            removed_url ← (match urls !! i with
                           | Some url => ret url
                           | None => raise IndexError
                           end);
            data ← subscript w chat_id;
            modify (set_watchlists
                      (<[chat_id := Entry (channels data) (delete i urls)]>)) ;;
            w ← gets watchlists;
            save_watchlists w ;;
            log (LogRemovedUrl chat_id removed_url) ;;
            say u (RemovedUrl removed_url)
      end
  | _ => say u UsageRmApprise
  end.

(** Everything that reads or writes the subscription store: the handlers
    and the monitor's cycle.  ([set_apprise] tests a URL and keeps it in
    [user_data]; it touches none of the globals.) *)
Inductive operation :=
  | OpStart (u : update)
  | OpAdd (up : upstream) (u : update) (args : list string)
  | OpRemove (u : update) (args : list string)
  | OpList (u : update)
  | OpConfirmApprise (u : update) (text : string) (pending : option string)
  | OpListApprise (u : update)
  | OpRemoveApprise (u : update) (args : list string)
  | OpCycle (up : upstream) (h : headers).

Definition perform (CLIENT_ID : string) (o : operation) : M unit :=
  match o with
  | OpStart u => start u
  | OpAdd up u args => add_channel CLIENT_ID up u args
  | OpRemove u args => remove_channel u args
  | OpList u => list_channels u
  | OpConfirmApprise u text pending => confirm_apprise u text pending
  | OpListApprise u => list_apprise u
  | OpRemoveApprise u args => remove_apprise u args
  | OpCycle up h => monitor_cycle up h
  end.

End handlers.

(** ** Reading a run *)

(** The notifications among the events of a run, in the order sent. *)
Definition notifications (evs : list event) : list notification :=
  omap (λ e, match e with Notify n => Some n | _ => None end) evs.

(** The ids handed to [helix/streams] in the events of a run. *)
Definition polled_ids (evs : list event) : list string :=
  evs ≫= (λ e, match e with Http (GetStreams _ ids) => ids | _ => [] end).

(** The channel name a title speaks about. *)
Definition channel_of (t : title_text) : string :=
  match t with
  | NowLive u | GoneOffline u | AlreadyLive u => u
  end.

(** A notification with title [t] was sent to [chat_id]. *)
Definition emits (evs : list event) (chat_id : string) (t : title_text)
    : Prop :=
  ∃ n, n ∈ notifications evs ∧ n_chat n = chat_id ∧ n_title n = t.

(** No notification about [username] was sent to [chat_id]. *)
Definition silent_for (evs : list event) (chat_id username : string) : Prop :=
  ∀ n, n ∈ notifications evs →
       ¬ (n_chat n = chat_id ∧ channel_of (n_title n) = username).

(** The cache after [for user in data: user_ids_cache[login] = id]. *)
Definition store_users (data : list user) (c : gmap string string)
    : gmap string string :=
  foldl (λ c u, <[login u := u_id u]> c) c data.

(** No entry of the store lists a channel or an Apprise URL twice. *)
Definition no_duplicates (w : gmap string entry) : Prop :=
  ∀ chat_id data, w !! chat_id = Some data →
                  NoDup (channels data) ∧ NoDup (apprise_urls data).

Definition store_invariant (s : state) : Prop :=
  no_duplicates (watchlists s) ∧
  ∀ w, watchlist_file s = Some w → no_duplicates w.

(** A subscriber's entry; the empty one when they have none. *)
Definition entry_of (w : gmap string entry) (chat_id : string) : entry :=
  default empty_entry (w !! chat_id).

(** The store after [chat_id]'s list of channels has become [chans]. *)
Definition with_channels (chat_id : string) (chans : list string)
    (w : gmap string entry) : gmap string entry :=
  <[chat_id := Entry chans (apprise_urls (entry_of w chat_id))]> w.

(** An event that is an HTTP request. *)
Definition is_request (e : event) : Prop :=
  match e with Http _ => True | _ => False end.

Section reading.
Context `{PyStr}.

(** The names that [get_user_ids] has to ask Twitch about. *)
Definition to_fetch_of (s : state) (usernames : list string) : list string :=
  filter (λ u, u ∉ dom (user_ids_cache s)) (lower <$> usernames).

(** What the inner loop body sends and logs for one watched name, when the
    snapshot in force is [ls]: nothing for a name without a (truthy) id,
    otherwise according to the two booleans. *)
Definition channel_events (user_id_map : gmap string string)
    (live_data : gmap string stream) (ls : gmap string bool)
    (w : gmap string entry) (chat_id username : string) : list event :=
  match truthy (user_id_map !! lower username) with
  | None => []
  | Some uid =>
      match live_data !! uid, default false (ls !! uid) with
      | Some st, false =>
          [Notify (Notification chat_id (extra_urls_of w chat_id)
                                (NowLive username) (StreamBody st username));
           Log (LogNotifiedLive chat_id username)]
      | None, true =>
          [Notify (Notification chat_id (extra_urls_of w chat_id)
                                (GoneOffline username) (OfflineBody username));
           Log (LogNotifiedOffline chat_id username)]
      | _, _ => []
      end
  end.

(** The same for the two nested loops over [watchlists.items()]. *)
Definition diff_events (user_id_map : gmap string string)
    (live_data : gmap string stream) (ls : gmap string bool)
    (w : gmap string entry) : list event :=
  map_to_list w ≫= (λ '(chat_id, data),
    channels data ≫= channel_events user_id_map live_data ls w chat_id).

(** "The channels polled are the union of the watched channels", read on
    one cycle: every watched name has an id that is polled, and every id
    that is polled is the id of a watched name.  Ids are those that the
    cache holds after the cycle. *)
Definition polled_equals_watched (up : upstream) (h : headers) (s : state)
    : Prop :=
  let r := monitor_cycle up h s in
  let resolves name uid := user_ids_cache (final r) !! lower name = Some uid in
  (∀ name, name ∈ all_channels (watchlists s) →
           ∃ uid, resolves name uid ∧ uid ∈ polled_ids (emitted r)) ∧
  (∀ uid, uid ∈ polled_ids (emitted r) →
          ∃ name, name ∈ all_channels (watchlists s) ∧ resolves name uid).

End reading.

(** ** A concrete setting

    [str] restricted to ASCII text, which is what Twitch logins, the
    yes/no answers and the decimal indices of the commands are made of. *)

Definition ascii_lower (c : Ascii.ascii) : Ascii.ascii :=
  let n := Ascii.nat_of_ascii c in
  if (65 <=? n)%nat && (n <=? 90)%nat then Ascii.ascii_of_nat (n + 32) else c.

Fixpoint str_lower (s : string) : string :=
  match s with
  | EmptyString => EmptyString
  | String c s' => String (ascii_lower c) (str_lower s')
  end.

Definition is_space (c : Ascii.ascii) : bool :=
  let n := Ascii.nat_of_ascii c in
  ((9 <=? n)%nat && (n <=? 13)%nat) || (n =? 32)%nat.

Fixpoint dropwhile_space (l : list Ascii.ascii) : list Ascii.ascii :=
  match l with
  | c :: l' => if is_space c then dropwhile_space l' else l
  | [] => []
  end.

Definition str_strip (s : string) : string :=
  let chars := String.list_ascii_of_string s in
  let tail := dropwhile_space chars in
  String.string_of_list_ascii (reverse (dropwhile_space (reverse tail))).

Fixpoint str_digits (s : string) (acc : Z) : option Z :=
  match s with
  | EmptyString => Some acc
  | String c s' =>
      let n := Ascii.nat_of_ascii c in
      if (48 <=? n)%nat && (n <=? 57)%nat
      then str_digits s' (10 * acc + Z.of_nat (n - 48))%Z
      else None
  end.

Definition str_int (s : string) : option Z :=
  match s with
  | EmptyString => None
  | String c s' =>
      let n := Ascii.nat_of_ascii c in
      if (n =? 45)%nat then
        if bool_decide (s' = "") then None else Z.opp <$> str_digits s' 0
      else if (n =? 43)%nat then
        if bool_decide (s' = "") then None else str_digits s' 0
      else str_digits s 0
  end.

Definition ascii_str : PyStr :=
  {| lower := str_lower; strip := str_strip; py_int := str_int |}.

Module Demo.

Definition hdr : headers := Headers "client" "Bearer token".

Definition alice_stream : stream := Stream "1001" "Speedrun" "Celeste" 42.

(** Twitch knows [alice] (id [1001], live) and nobody else. *)
Definition twitch_alice_live : upstream :=
  Upstream (Answer "token")
           (λ _ logins, Answer (if bool_decide ("alice" ∈ logins)
                                then [User "alice" "1001"] else []))
           (λ _ ids, Answer (if bool_decide ("1001" ∈ ids)
                             then [alice_stream] else [])).

(** Twitch is unreachable. *)
Definition twitch_down : upstream :=
  Upstream (Failure ConnectionError)
           (λ _ _, Failure ConnectionError)
           (λ _ _, Failure ConnectionError).

(** Twitch is reachable and knows no login at all. *)
Definition twitch_quiet : upstream :=
  Upstream (Answer "token") (λ _ _, Answer []) (λ _ _, Answer []).

Definition me : update := Update "42" "dana".

(** Nothing cached, nothing known live, the store [w] read from the file. *)
Definition fresh (w : gmap string entry) : state := startup (Some w).

Definition watching (chans : list string) : gmap string entry :=
  {["42" := Entry chans []]}.

End Demo.

(** ** Further readings of a state or a run *)

#[global] Instance entry_eq_dec : EqDecision entry.
Proof. solve_decision. Defined.

(** Every entry of a snapshot says "live". *)
Definition all_true (ls : gmap string bool) : Prop :=
  ∀ uid b, ls !! uid = Some b → b = true.

(** What a restart would load is what the process holds. *)
Definition in_sync (s : state) : Prop :=
  load_watchlists (watchlist_file s) = watchlists s.

(** How many cycles were started, how many tokens were asked for. *)
Definition polls_started (evs : list event) : nat :=
  length (omap (λ e, match e with Log LogPolling => Some () | _ => None end)
               evs).

Definition token_requests (evs : list event) : nat :=
  length (omap (λ e, match e with Http PostToken => Some () | _ => None end)
               evs).

(** The notification [n] is for [chat_id] and about [username]. *)
Definition about (chat_id username : string) (n : notification) : Prop :=
  n_chat n = chat_id ∧ channel_of (n_title n) = username.

(** An answer of [helix/users] that names requested logins only. *)
Definition only_requested (to_fetch : list string) (data : list user)
    : Prop :=
  ∀ u, u ∈ data → login u ∈ to_fetch.

(** Between [s] and [s'] the store and the file were left alone, or the
    file was written with the store that [s'] holds. *)
Definition kept_or_saved (s s' : state) : Prop :=
  (watchlists s' = watchlists s ∧ watchlist_file s' = watchlist_file s) ∨
  watchlist_file s' = Some (watchlists s').

(** The events of a cycle after its "Polling" line: other log lines,
    notifications, and the two Helix requests under the headers [h]. *)
Definition inside_cycle (h : headers) (e : event) : Prop :=
  match e with
  | Log LogPolling => False
  | Log _ | Notify _ => True
  | Http (GetUsers h' _) | Http (GetStreams h' _) => h' = h
  | Http PostToken | Reply _ _ | Save _ => False
  end.

(** The state after the operations [ops], performed one after the other. *)
Definition perform_all `{PyStr} (CLIENT_ID : string) (ops : list operation)
    (s : state) : state :=
  foldl (λ s o, final (perform CLIENT_ID o s)) s ops.

(** * Properties *)

(** ** Basic facts about runs *)

Lemma run_bind {A B} (m : M A) (f : A → M B) (s : state) :
  (m ≫= f) s = then_run (m s) f.
Proof. reflexivity. Qed.

Lemma run_try {A} (m : M A) (h : exn → M A) (s : state) :
  try_except m h s = handle_run (m s) h.
Proof. reflexivity. Qed.

Lemma run_for_each_cons {A} (x : A) (l : list A) (body : A → M unit) s :
  for_each (x :: l) body s = then_run (body x s) (λ _, for_each l body).
Proof. reflexivity. Qed.

Lemma then_run_ok {A B} (a : A) s evs (f : A → M B) :
  then_run (Run (Ok a) s evs) f = prepend evs (f a s).
Proof. reflexivity. Qed.

Lemma then_run_raise {A B} e s evs (f : A → M B) :
  then_run (Run (Raise e) s evs) f = Run (Raise e) s evs.
Proof. reflexivity. Qed.

Lemma then_run_prepend {A B} evs (r : run A) (f : A → M B) :
  then_run (prepend evs r) f = prepend evs (then_run r f).
Proof.
  destruct r as [[a|e] s evs']; unfold then_run, prepend; cbn; [|done].
  by rewrite app_assoc.
Qed.

Lemma handle_run_ok {A} (a : A) s evs (h : exn → M A) :
  handle_run (Run (Ok a) s evs) h = Run (Ok a) s evs.
Proof. reflexivity. Qed.

Lemma handle_run_raise {A} e s evs (h : exn → M A) :
  handle_run (Run (Raise e) s evs) h = prepend evs (h e s).
Proof. reflexivity. Qed.

Lemma handle_run_prepend {A} evs (r : run A) (h : exn → M A) :
  handle_run (prepend evs r) h = prepend evs (handle_run r h).
Proof.
  destruct r as [[a|e] s evs']; unfold handle_run, prepend; cbn; [done|].
  by rewrite app_assoc.
Qed.

Lemma prepend_run {A} evs (o : outcome A) s evs' :
  prepend evs (Run o s evs') = Run o s (evs ++ evs').
Proof. reflexivity. Qed.

Lemma prepend_prepend {A} evs evs' (r : run A) :
  prepend evs (prepend evs' r) = prepend (evs ++ evs') r.
Proof. unfold prepend. cbn. by rewrite app_assoc. Qed.

Lemma prepend_nil {A} (r : run A) : prepend [] r = r.
Proof. by destruct r. Qed.

Lemma run_ret {A} (a : A) s : ret a s = Run (Ok a) s [].
Proof. reflexivity. Qed.

Lemma run_raise {A} e s : @raise A e s = Run (Raise e) s [].
Proof. reflexivity. Qed.

Lemma run_emit ev s : emit ev s = Run (Ok ()) s [ev].
Proof. reflexivity. Qed.

Lemma run_log m s : log m s = Run (Ok ()) s [Log m].
Proof. reflexivity. Qed.

Lemma run_gets {A} (f : state → A) s : gets f s = Run (Ok (f s)) s [].
Proof. reflexivity. Qed.

Lemma run_modify f s : modify f s = Run (Ok ()) (f s) [].
Proof. reflexivity. Qed.

Lemma run_http_answer {A} r (v : A) s :
  http r (Answer v) s = Run (Ok v) s [Http r].
Proof. reflexivity. Qed.

Lemma run_http_failure {A} r e s :
  http r (@Failure A e) s = Run (Raise e) s [Http r].
Proof. reflexivity. Qed.

Lemma run_for_each_nil {A} (body : A → M unit) s :
  for_each [] body s = Run (Ok ()) s [].
Proof. reflexivity. Qed.

Create Rewrite HintDb run.
#[global] Hint Rewrite @run_bind @run_try @then_run_ok @then_run_raise
  @then_run_prepend @handle_run_ok @handle_run_raise @handle_run_prepend
  @prepend_run @prepend_prepend @prepend_nil @run_ret @run_raise run_emit
  run_log @run_gets run_modify @run_http_answer @run_http_failure
  @run_for_each_nil @run_for_each_cons : run.

(** Symbolic execution of the first steps of a run. *)
Ltac run := autorewrite with run; cbn [app].

(** Composite computations are unfolded by hand, one at a time. *)
#[global] Arguments get_user_ids : simpl never.
#[global] Arguments get_live_streams : simpl never.
#[global] Arguments get_app_token : simpl never.
#[global] Arguments send_notification : simpl never.
#[global] Arguments save_watchlists : simpl never.
#[global] Arguments resolve_and_poll : simpl never.
#[global] Arguments check_channel : simpl never.
#[global] Arguments cycle_body : simpl never.
#[global] Arguments monitor_cycle : simpl never.
#[global] Arguments live_check_on_add : simpl never.
#[global] Arguments store_loop : simpl never.
#[global] Arguments notifications : simpl never.
#[global] Arguments polled_ids : simpl never.

Lemma notifications_app (l1 l2 : list event) :
  notifications (l1 ++ l2) = notifications l1 ++ notifications l2.
Proof. apply omap_app. Qed.

Lemma notifications_cons (e : event) (l : list event) :
  notifications (e :: l)
  = match e with Notify n => [n] | _ => [] end ++ notifications l.
Proof. by destruct e. Qed.

Lemma polled_ids_cons (e : event) (l : list event) :
  polled_ids (e :: l)
  = match e with Http (GetStreams _ ids) => ids | _ => [] end
    ++ polled_ids l.
Proof. reflexivity. Qed.

Lemma polled_ids_app (l1 l2 : list event) :
  polled_ids (l1 ++ l2) = polled_ids l1 ++ polled_ids l2.
Proof. apply bind_app. Qed.

Lemma run_store_loop (data : list user) (s : state) :
  store_loop data s
  = Run (Ok ()) (set_user_ids_cache (store_users data) s)
        ((λ u, Log (LogResolved (login u) (u_id u))) <$> data).
Proof.
  revert s. induction data as [|u data IH]; intros s.
  - unfold store_loop. run. by destruct s.
  - unfold store_loop in *. run. rewrite IH. run. by destruct s.
Qed.

Section twitch_facts.
Context `{PyStr}.

Lemma get_user_ids_cached up h usernames s :
  to_fetch_of s usernames = [] →
  get_user_ids up h usernames s
  = Run (Ok (cached_ids (user_ids_cache s) (lower <$> usernames))) s [].
Proof.
  unfold to_fetch_of. intros Hnil.
  unfold get_user_ids. cbv zeta. run. rewrite Hnil. by run.
Qed.

Lemma get_user_ids_failure up h usernames s e :
  to_fetch_of s usernames ≠ [] →
  helix_users up h (to_fetch_of s usernames) = Failure e →
  get_user_ids up h usernames s
  = Run (Raise e) s
        [Log (LogFetchingIds (to_fetch_of s usernames));
         Http (GetUsers h (to_fetch_of s usernames))].
Proof.
  unfold to_fetch_of. intros Hne Hfail.
  unfold get_user_ids. cbv zeta. run. rewrite bool_decide_eq_false_2 by done.
  run. rewrite Hfail. by run.
Qed.

Lemma get_user_ids_answer up h usernames s data :
  to_fetch_of s usernames ≠ [] →
  helix_users up h (to_fetch_of s usernames) = Answer data →
  get_user_ids up h usernames s
  = Run (Ok (cached_ids (store_users data (user_ids_cache s))
                        (lower <$> usernames)))
        (set_user_ids_cache (store_users data) s)
        (Log (LogFetchingIds (to_fetch_of s usernames))
         :: Http (GetUsers h (to_fetch_of s usernames))
         :: ((λ u, Log (LogResolved (login u) (u_id u))) <$> data)).
Proof.
  unfold to_fetch_of. intros Hne Hans.
  unfold get_user_ids. cbv zeta. run. rewrite bool_decide_eq_false_2 by done.
  run. rewrite Hans. run. rewrite run_store_loop. run.
  by rewrite app_nil_r.
Qed.

(** However [get_user_ids] fails, it fails before it has written. *)
Lemma get_user_ids_raise_keeps_state up h usernames s e :
  result (get_user_ids up h usernames s) = Raise e →
  final (get_user_ids up h usernames s) = s.
Proof.
  destruct (decide (to_fetch_of s usernames = [])) as [Hnil|Hne].
  { by rewrite get_user_ids_cached. }
  destruct (helix_users up h (to_fetch_of s usernames)) as [data|e'] eqn:E.
  - by rewrite (get_user_ids_answer _ _ _ _ data).
  - by rewrite (get_user_ids_failure _ _ _ _ e').
Qed.

End twitch_facts.

Lemma run_get_live_streams_empty up h s :
  get_live_streams up h [] s = Run (Ok ∅) s [].
Proof. reflexivity. Qed.

Lemma run_get_live_streams_answer up h ids data s :
  ids ≠ [] →
  helix_streams up h ids = Answer data →
  get_live_streams up h ids s
  = Run (Ok (by_user_id data)) s [Http (GetStreams h ids)].
Proof.
  intros Hne Hans. unfold get_live_streams.
  rewrite bool_decide_eq_false_2 by done. run. rewrite Hans. by run.
Qed.

Lemma run_get_live_streams_failure up h ids e s :
  ids ≠ [] →
  helix_streams up h ids = Failure e →
  get_live_streams up h ids s = Run (Raise e) s [Http (GetStreams h ids)].
Proof.
  intros Hne Hfail. unfold get_live_streams.
  rewrite bool_decide_eq_false_2 by done. run. rewrite Hfail. by run.
Qed.

(** [get_live_streams] changes no global and sends no notification. *)
Lemma get_live_streams_frame up h ids s :
  final (get_live_streams up h ids s) = s ∧
  notifications (emitted (get_live_streams up h ids s)) = [].
Proof.
  destruct ids as [|i ids]; [done|].
  destruct (helix_streams up h (i :: ids)) as [data|e] eqn:E.
  - by rewrite (run_get_live_streams_answer _ _ _ data).
  - by rewrite (run_get_live_streams_failure _ _ _ e).
Qed.

Lemma run_send_notification chat_id t b s :
  send_notification chat_id t b s
  = Run (Ok ()) s
        [Notify (Notification chat_id (extra_urls_of (watchlists s) chat_id)
                              t b)].
Proof. unfold send_notification. by run. Qed.

Lemma run_save_watchlists w s :
  save_watchlists w s = Run (Ok ()) (set_watchlist_file w s) [Save w].
Proof. unfold save_watchlists. by run. Qed.

Lemma run_say u r s : say u r s = Run (Ok ()) s [Reply (chat_of u) r].
Proof. reflexivity. Qed.

#[global] Hint Rewrite run_send_notification run_save_watchlists
  run_get_live_streams_empty run_say : run.

Lemma notifications_resolved (data : list user) :
  notifications ((λ u, Log (LogResolved (login u) (u_id u))) <$> data) = [].
Proof. induction data; [done|]. cbn. done. Qed.

Lemma polled_ids_resolved (data : list user) :
  polled_ids ((λ u, Log (LogResolved (login u) (u_id u))) <$> data) = [].
Proof. induction data; [done|]. cbn. done. Qed.

Lemma run_for_each_pure {A} (l : list A) (body : A → M unit)
    (evs : A → list event) (s : state) :
  (∀ x, x ∈ l → body x s = Run (Ok ()) s (evs x)) →
  for_each l body s = Run (Ok ()) s (l ≫= evs).
Proof.
  induction l as [|x l IH]; intros Hbody; [done|].
  run. rewrite Hbody by left. run.
  rewrite IH by (intros; apply Hbody; by right). by run.
Qed.

Lemma lookup_current_live_of (ld : gmap string stream) (uid : string) :
  current_live_of ld !! uid = (λ _, true) <$> ld !! uid.
Proof. unfold current_live_of. apply lookup_fmap. Qed.

Section monitor_facts.
Context `{PyStr}.

(** [get_user_ids] changes nothing but the cache, sends no notification and
    polls nothing. *)
Lemma get_user_ids_frame up h usernames s :
  let r := get_user_ids up h usernames s in
  live_status (final r) = live_status s ∧
  watchlists (final r) = watchlists s ∧
  watchlist_file (final r) = watchlist_file s ∧
  notifications (emitted r) = [] ∧
  polled_ids (emitted r) = [].
Proof.
  destruct (decide (to_fetch_of s usernames = [])) as [Hnil|Hne].
  { by rewrite get_user_ids_cached. }
  destruct (helix_users up h (to_fetch_of s usernames)) as [data|e] eqn:E.
  - rewrite (get_user_ids_answer _ _ _ _ data) by done. cbn.
    rewrite !notifications_cons, !polled_ids_cons.
    by rewrite notifications_resolved, polled_ids_resolved.
  - by rewrite (get_user_ids_failure _ _ _ _ e).
Qed.

Lemma run_check_channel m ld chat_id username s :
  check_channel m ld (current_live_of ld) chat_id username s
  = Run (Ok ()) s
        (channel_events m ld (live_status s) (watchlists s) chat_id username).
Proof.
  unfold check_channel, channel_events, truthy.
  destruct (m !! lower username) as [uid|]; [|done].
  case_bool_decide; [done|]. run.
  rewrite lookup_current_live_of.
  destruct (ld !! uid) as [st|] eqn:Eld;
    destruct (live_status s !! uid) as [[]|] eqn:Els; cbn; run;
    unfold subscript; rewrite ?Eld; by run.
Qed.

Lemma run_check_loops m ld s :
  for_each (map_to_list (watchlists s)) (λ '(chat_id, data),
    for_each (channels data)
             (check_channel m ld (current_live_of ld) chat_id)) s
  = Run (Ok ()) s (diff_events m ld (live_status s) (watchlists s)).
Proof.
  unfold diff_events. apply run_for_each_pure. intros [chat_id data] _.
  apply run_for_each_pure. intros username _. apply run_check_channel.
Qed.

End monitor_facts.

Section cycle_facts.
Context `{PyStr}.

(** Resolving and polling leave the snapshot, the store and the file alone,
    and send no notification, whether they succeed or fail. *)
Lemma resolve_and_poll_frame up h s :
  let r := resolve_and_poll up h s in
  live_status (final r) = live_status s ∧
  watchlists (final r) = watchlists s ∧
  watchlist_file (final r) = watchlist_file s ∧
  notifications (emitted r) = [].
Proof.
  unfold resolve_and_poll. run.
  pose proof (get_user_ids_frame up h
                (elements (all_channels (watchlists s))) s) as Hu.
  cbv zeta in Hu.
  destruct (get_user_ids up h _ s) as [[m|e] s1 evs1]; cbn in Hu;
    destruct Hu as (Hls & Hw & Hf & Hn & _); run; [|done].
  pose proof (get_live_streams_frame up h ((map_to_list m).*2) s1) as Hl.
  destruct (get_live_streams up h _ s1) as [[ld|e] s2 evs2]; cbn in Hl;
    destruct Hl as [-> Hn2]; run; cbn;
    by rewrite ?app_nil_r, notifications_app, Hn, Hn2.
Qed.

(** The two ways in which the first half of a cycle fails. *)
Lemma resolve_and_poll_lookup_failure up h s e :
  let names := elements (all_channels (watchlists s)) in
  to_fetch_of s names ≠ [] →
  helix_users up h (to_fetch_of s names) = Failure e →
  result (resolve_and_poll up h s) = Raise e.
Proof.
  intros names Hne Hfail. unfold resolve_and_poll. run. fold names.
  rewrite (get_user_ids_failure _ _ _ _ e) by done. by run.
Qed.

Lemma resolve_and_poll_poll_failure up h s m e :
  let r := get_user_ids up h (elements (all_channels (watchlists s))) s in
  result r = Ok m →
  (map_to_list m).*2 ≠ [] →
  helix_streams up h ((map_to_list m).*2) = Failure e →
  result (resolve_and_poll up h s) = Raise e.
Proof.
  intros r Hres Hne Hfail. unfold resolve_and_poll. run. fold r.
  destruct r as [o s1 evs1]. cbn in Hres. subst o. run.
  rewrite (run_get_live_streams_failure _ _ _ e) by done. by run.
Qed.

Lemma run_cycle_body_ok up h s m ld s1 evs1 :
  resolve_and_poll up h s = Run (Ok (m, ld)) s1 evs1 →
  cycle_body up h s
  = Run (Ok ()) (set_live_status (λ _, current_live_of ld) s1)
        (Log LogPolling
         :: evs1 ++ diff_events m ld (live_status s1) (watchlists s1)).
Proof.
  intros Hrp. unfold cycle_body. run. rewrite Hrp. run.
  rewrite run_check_loops. run. by rewrite app_nil_r.
Qed.

Lemma run_cycle_body_raise up h s e s1 evs1 :
  resolve_and_poll up h s = Run (Raise e) s1 evs1 →
  cycle_body up h s = Run (Raise e) s1 (Log LogPolling :: evs1).
Proof. intros Hrp. unfold cycle_body. run. rewrite Hrp. by run. Qed.

Lemma run_monitor_cycle_ok up h s m ld s1 evs1 :
  resolve_and_poll up h s = Run (Ok (m, ld)) s1 evs1 →
  monitor_cycle up h s
  = Run (Ok ()) (set_live_status (λ _, current_live_of ld) s1)
        (Log LogPolling
         :: evs1 ++ diff_events m ld (live_status s1) (watchlists s1)).
Proof.
  intros Hrp. unfold monitor_cycle. run.
  rewrite (run_cycle_body_ok _ _ _ _ _ _ _ Hrp). by run.
Qed.

Lemma run_monitor_cycle_raise up h s e s1 evs1 :
  resolve_and_poll up h s = Run (Raise e) s1 evs1 →
  monitor_cycle up h s
  = Run (Ok ()) s1 (Log LogPolling :: evs1 ++ [Log (LogMonitorError e)]).
Proof.
  intros Hrp. unfold monitor_cycle. run.
  rewrite (run_cycle_body_raise _ _ _ _ _ _ Hrp). by run.
Qed.

(** A cycle never lets an exception escape. *)
Lemma monitor_cycle_returns up h s : result (monitor_cycle up h s) = Ok ().
Proof.
  destruct (resolve_and_poll up h s) as [[[m ld]|e] s1 evs1] eqn:E.
  - by rewrite (run_monitor_cycle_ok _ _ _ _ _ _ _ E).
  - by rewrite (run_monitor_cycle_raise _ _ _ _ _ _ E).
Qed.

(** The notifications of a successful cycle are those of the diff against
    the snapshot the cycle started with. *)
Lemma monitor_cycle_notifications up h s m ld :
  result (resolve_and_poll up h s) = Ok (m, ld) →
  notifications (emitted (monitor_cycle up h s))
  = notifications (diff_events m ld (live_status s) (watchlists s)) ∧
  live_status (final (monitor_cycle up h s)) = current_live_of ld ∧
  watchlists (final (monitor_cycle up h s)) = watchlists s.
Proof.
  intros Hres. pose proof (resolve_and_poll_frame up h s) as Hf.
  cbv zeta in Hf.
  destruct (resolve_and_poll up h s) as [o s1 evs1] eqn:E.
  cbn in Hres, Hf. subst o. destruct Hf as (Hls & Hw & _ & Hn).
  rewrite (run_monitor_cycle_ok _ _ _ _ _ _ _ E). cbn.
  rewrite notifications_cons, notifications_app, Hn, Hls, Hw.
  by destruct s1.
Qed.

End cycle_facts.

(** ** The diff of a cycle *)

Lemma notifications_bind {A} (l : list A) (f : A → list event) :
  notifications (l ≫= f) = l ≫= (λ x, notifications (f x)).
Proof.
  induction l as [|x l IH]; [done|].
  cbn. by rewrite notifications_app, IH.
Qed.

Lemma bind_all_nil {A B} (l : list A) (f : A → list B) :
  (∀ x, x ∈ l → f x = []) → l ≫= f = [].
Proof.
  induction l as [|x l IH]; intros Hf; [done|].
  rewrite bind_cons, Hf by left. cbn. apply IH. intros. apply Hf. by right.
Qed.

Section diff_facts.
Context `{PyStr}.

Lemma notifications_channel_events m ld ls w chat_id username :
  notifications (channel_events m ld ls w chat_id username)
  = match truthy (m !! lower username) with
    | None => []
    | Some uid =>
        match ld !! uid, default false (ls !! uid) with
        | Some st, false =>
            [Notification chat_id (extra_urls_of w chat_id)
                          (NowLive username) (StreamBody st username)]
        | None, true =>
            [Notification chat_id (extra_urls_of w chat_id)
                          (GoneOffline username) (OfflineBody username)]
        | _, _ => []
        end
    end.
Proof.
  unfold channel_events. destruct (truthy _) as [uid|]; [|done].
  by destruct (ld !! uid), (default false (ls !! uid)).
Qed.

Lemma elem_of_notifications_diff n m ld ls (w : gmap string entry) :
  n ∈ notifications (diff_events m ld ls w) ↔
  ∃ chat_id data username,
    w !! chat_id = Some data ∧ username ∈ channels data ∧
    n ∈ notifications (channel_events m ld ls w chat_id username).
Proof.
  unfold diff_events. rewrite notifications_bind, list_elem_of_bind. split.
  - intros ([chat_id data] & Hn & Hin).
    rewrite notifications_bind, list_elem_of_bind in Hn.
    destruct Hn as (username & Hn & Hu).
    exists chat_id, data, username. by rewrite <- elem_of_map_to_list.
  - intros (chat_id & data & username & Hw & Hu & Hn).
    exists (chat_id, data). split; [|by apply elem_of_map_to_list].
    rewrite notifications_bind, list_elem_of_bind. eauto.
Qed.

(** Whatever the diff sends to [chat_id] about [username] is one of the two
    transitions of the id that [username] resolves to. *)
Lemma diff_notification_inv n m ld ls (w : gmap string entry)
    chat_id username uid :
  truthy (m !! lower username) = Some uid →
  n ∈ notifications (diff_events m ld ls w) →
  n_chat n = chat_id →
  channel_of (n_title n) = username →
  (n_title n = NowLive username ∧ is_Some (ld !! uid) ∧
   default false (ls !! uid) = false) ∨
  (n_title n = GoneOffline username ∧ ld !! uid = None ∧
   default false (ls !! uid) = true).
Proof.
  intros Huid Hn Hchat Hname.
  apply elem_of_notifications_diff in Hn
    as (chat' & data' & username' & _ & _ & Hn).
  rewrite notifications_channel_events in Hn.
  destruct (truthy (m !! lower username')) as [uid'|] eqn:Huid';
    [|by apply elem_of_nil in Hn].
  destruct (ld !! uid') as [st|] eqn:Hld;
    destruct (default false (ls !! uid')) eqn:Hls;
    try (by apply elem_of_nil in Hn);
    apply list_elem_of_singleton in Hn; subst n; cbn in *; subst username';
    rewrite Huid in Huid'; injection Huid' as <-; eauto.
Qed.

Lemma diff_emits_now_live m ld ls (w : gmap string entry)
    chat_id data username uid st :
  w !! chat_id = Some data →
  username ∈ channels data →
  truthy (m !! lower username) = Some uid →
  ld !! uid = Some st →
  default false (ls !! uid) = false →
  Notification chat_id (extra_urls_of w chat_id) (NowLive username)
               (StreamBody st username)
  ∈ notifications (diff_events m ld ls w).
Proof.
  intros Hw Hu Huid Hld Hls. apply elem_of_notifications_diff.
  exists chat_id, data, username. split_and!; [done..|].
  rewrite notifications_channel_events, Huid, Hld, Hls.
  apply list_elem_of_singleton. done.
Qed.

Lemma diff_emits_gone_offline m ld ls (w : gmap string entry)
    chat_id data username uid :
  w !! chat_id = Some data →
  username ∈ channels data →
  truthy (m !! lower username) = Some uid →
  ld !! uid = None →
  default false (ls !! uid) = true →
  Notification chat_id (extra_urls_of w chat_id) (GoneOffline username)
               (OfflineBody username)
  ∈ notifications (diff_events m ld ls w).
Proof.
  intros Hw Hu Huid Hld Hls. apply elem_of_notifications_diff.
  exists chat_id, data, username. split_and!; [done..|].
  rewrite notifications_channel_events, Huid, Hld, Hls.
  apply list_elem_of_singleton. done.
Qed.

(** Diffing a poll result against the snapshot made from that same result
    sends nothing. *)
Lemma diff_against_itself m ld (w : gmap string entry) :
  notifications (diff_events m ld (current_live_of ld) w) = [].
Proof.
  unfold diff_events. rewrite notifications_bind.
  apply bind_all_nil. intros [chat_id data] _.
  rewrite notifications_bind.
  apply bind_all_nil. intros username _.
  rewrite notifications_channel_events.
  destruct (truthy _) as [uid|]; [|done].
  rewrite lookup_current_live_of. by destruct (ld !! uid).
Qed.

End diff_facts.

(** ** The reconciliation cycle *)

Section cycle_claims.
Context `{PyStr}.

(** C1.  In a cycle whose resolve and poll steps succeed, take a subscriber
    [chat_id], a name [username] on their watchlist, and the id [uid] that
    the name resolved to.  With [previous] the snapshot before the cycle and
    [current] the one built from this poll (which the cycle installs):
    a went-live notification for the pair is sent iff [previous] maps [uid]
    to false or has no entry and [current] maps it to true; a went-offline
    notification iff [previous] maps it to true and [current] maps it to
    false or has no entry; and when neither holds nothing at all is sent to
    the subscriber about that name. *)
Theorem cycle_emits_exactly_the_transitions
    up h s m ld chat_id data username uid :
  result (resolve_and_poll up h s) = Ok (m, ld) →
  watchlists s !! chat_id = Some data →
  username ∈ channels data →
  truthy (m !! lower username) = Some uid →
  let previous := live_status s in
  let current := current_live_of ld in
  let evs := emitted (monitor_cycle up h s) in
  let went_live :=
    (previous !! uid = Some false ∨ previous !! uid = None) ∧
    current !! uid = Some true in
  let went_offline :=
    previous !! uid = Some true ∧
    (current !! uid = Some false ∨ current !! uid = None) in
  live_status (final (monitor_cycle up h s)) = current ∧
  (emits evs chat_id (NowLive username) ↔ went_live) ∧
  (emits evs chat_id (GoneOffline username) ↔ went_offline) ∧
  (¬ went_live → ¬ went_offline → silent_for evs chat_id username).
Proof.
  intros Hres Hw Hu Huid previous current evs went_live went_offline.
  destruct (monitor_cycle_notifications up h s m ld Hres) as (Hn & Hls & _).
  assert (Hlive : went_live ↔
            is_Some (ld !! uid) ∧ default false (previous !! uid) = false).
  { unfold went_live, current. rewrite lookup_current_live_of.
    destruct (ld !! uid), (previous !! uid) as [[]|]; cbn;
      split; intros; destruct_and?; destruct_or?; simplify_eq;
      try (by exfalso; eapply is_Some_None); eauto. }
  assert (Hoff : went_offline ↔
            ld !! uid = None ∧ default false (previous !! uid) = true).
  { unfold went_offline, current. rewrite lookup_current_live_of.
    destruct (ld !! uid), (previous !! uid) as [[]|]; cbn;
      split; intros; destruct_and?; destruct_or?; simplify_eq; eauto. }
  split; [done|]. unfold emits, silent_for, evs. rewrite Hn.
  split_and!.
  - rewrite Hlive. split.
    + intros (n & Hin & Hchat & Htitle).
      assert (Hc : channel_of (n_title n) = username) by (by rewrite Htitle).
      destruct (diff_notification_inv _ _ _ _ _ _ _ _ Huid Hin Hchat Hc)
        as [(_ & ? & ?)|(Ht & _)]; [by split|congruence].
    + intros [[st Hld] Hprev].
      eexists. split; [by eapply diff_emits_now_live|done].
  - rewrite Hoff. split.
    + intros (n & Hin & Hchat & Htitle).
      assert (Hc : channel_of (n_title n) = username) by (by rewrite Htitle).
      destruct (diff_notification_inv _ _ _ _ _ _ _ _ Huid Hin Hchat Hc)
        as [(Ht & _)|(_ & ? & ?)]; [congruence|by split].
    + intros [Hld Hprev].
      eexists. split; [by eapply diff_emits_gone_offline|done].
  - rewrite Hlive, Hoff. intros Hnl Hno n Hin [Hchat Hname].
    destruct (diff_notification_inv _ _ _ _ _ _ _ _ Huid Hin Hchat Hname)
      as [(_ & ? & ?)|(_ & ? & ?)]; [by apply Hnl|by apply Hno].
Qed.

(** C2.  If resolving the names or polling the live state fails, the cycle
    sends no notification, logs the error, returns normally and leaves
    [live_status] as it was; and the next cycle, when its own resolve and
    poll steps succeed, sends the notifications of the diff against that
    unchanged snapshot. *)
Theorem failed_cycle_keeps_snapshot up h s e up' m' ld' :
  result (resolve_and_poll up h s) = Raise e →
  let r := monitor_cycle up h s in
  result r = Ok () ∧
  notifications (emitted r) = [] ∧
  Log (LogMonitorError e) ∈ emitted r ∧
  live_status (final r) = live_status s ∧
  (result (resolve_and_poll up' h (final r)) = Ok (m', ld') →
   notifications (emitted (monitor_cycle up' h (final r)))
   = notifications (diff_events m' ld' (live_status s) (watchlists s))).
Proof.
  intros Hres. pose proof (resolve_and_poll_frame up h s) as Hf.
  cbv zeta in Hf.
  destruct (resolve_and_poll up h s) as [o s1 evs1] eqn:E.
  cbn in Hres, Hf. subst o. destruct Hf as (Hls & Hw & _ & Hn).
  rewrite (run_monitor_cycle_raise _ _ _ _ _ _ E). cbn.
  split_and!; [done| |set_solver|done|].
  - by rewrite notifications_cons, notifications_app, Hn.
  - intros Hres'.
    destruct (monitor_cycle_notifications up' h s1 m' ld' Hres')
      as (-> & _). by rewrite Hls, Hw.
Qed.

(** C3.  Two consecutive cycles with the same poll result: whatever the
    first one sent, the second one sends no notification at all. *)
Theorem second_identical_cycle_is_silent up1 up2 h s m1 m2 ld :
  result (resolve_and_poll up1 h s) = Ok (m1, ld) →
  let s' := final (monitor_cycle up1 h s) in
  result (resolve_and_poll up2 h s') = Ok (m2, ld) →
  notifications (emitted (monitor_cycle up2 h s')) = [].
Proof.
  intros Hres1 s' Hres2.
  destruct (monitor_cycle_notifications up1 h s m1 ld Hres1) as (_ & Hls & _).
  destruct (monitor_cycle_notifications up2 h s' m2 ld Hres2) as (-> & _).
  fold s' in Hls. rewrite Hls. apply diff_against_itself.
Qed.

End cycle_claims.

(** ** Adding a channel *)

Lemma run_get_app_token_answer up token s :
  oauth2_token up = Answer token →
  get_app_token up s
  = Run (Ok token) s
        [Log LogRequestingToken; Http PostToken; Log LogTokenReceived].
Proof. intros Htok. unfold get_app_token. run. rewrite Htok. by run. Qed.

Lemma run_get_app_token_failure up e s :
  oauth2_token up = Failure e →
  get_app_token up s
  = Run (Raise e) s [Log LogRequestingToken; Http PostToken].
Proof. intros Htok. unfold get_app_token. run. rewrite Htok. by run. Qed.

Lemma setdefault_lookup chat_id (w : gmap string entry) :
  setdefault chat_id w !! chat_id = Some (entry_of w chat_id).
Proof.
  unfold setdefault, entry_of.
  destruct (w !! chat_id) as [d|] eqn:E; cbn; [done|].
  apply lookup_insert_eq.
Qed.

Lemma insert_setdefault chat_id d (w : gmap string entry) :
  <[chat_id := d]> (setdefault chat_id w) = <[chat_id := d]> w.
Proof.
  unfold setdefault. destruct (w !! chat_id); [done|].
  apply insert_insert_eq.
Qed.

Lemma setdefault_present chat_id d (w : gmap string entry) :
  w !! chat_id = Some d → setdefault chat_id w = w.
Proof. unfold setdefault. by intros ->. Qed.

Section add_facts.
Context `{PyStr}.

(** What [get_user_ids] does depends on the cache only. *)
Lemma get_user_ids_cache_only up h usernames s s0 :
  user_ids_cache s = user_ids_cache s0 →
  get_user_ids up h usernames s
  = Run (result (get_user_ids up h usernames s0))
        (set_user_ids_cache
           (λ _, user_ids_cache (final (get_user_ids up h usernames s0))) s)
        (emitted (get_user_ids up h usernames s0)).
Proof.
  intros Hc.
  assert (Hf : to_fetch_of s usernames = to_fetch_of s0 usernames)
    by (unfold to_fetch_of; by rewrite Hc).
  destruct (decide (to_fetch_of s0 usernames = [])) as [Hnil|Hne].
  { rewrite !get_user_ids_cached by congruence. cbn.
    rewrite Hc. f_equal. destruct s; cbn in *; by subst. }
  destruct (helix_users up h (to_fetch_of s0 usernames)) as [data|e] eqn:E.
  - rewrite !(get_user_ids_answer _ _ _ _ data) by congruence. cbn.
    rewrite Hc, Hf. f_equal. destruct s; cbn in *; by subst.
  - rewrite !(get_user_ids_failure _ _ _ _ e) by congruence. cbn.
    rewrite Hf. f_equal. destruct s; cbn in *; by subst.
Qed.

(** The immediate check never lets an exception escape and leaves the
    store and the file alone. *)
Lemma live_check_on_add_frame CLIENT_ID up u channel s :
  let r := live_check_on_add CLIENT_ID up u channel s in
  result r = Ok () ∧
  watchlists (final r) = watchlists s ∧
  watchlist_file (final r) = watchlist_file s.
Proof.
  unfold live_check_on_add. run.
  destruct (oauth2_token up) as [token|e] eqn:Htok.
  2: { rewrite (run_get_app_token_failure _ e) by done. by run. }
  rewrite (run_get_app_token_answer _ token) by done. run.
  set (h := Headers CLIENT_ID ("Bearer " +:+ token)).
  pose proof (get_user_ids_frame up h [channel] s) as Hu. cbv zeta in Hu.
  destruct (get_user_ids up h [channel] s) as [[m|e] s1 evs1]; cbn in Hu;
    destruct Hu as (_ & Hw & Hf & _); run; [|done].
  destruct (truthy (m !! channel)) as [uid|]; run; [|done].
  pose proof (get_live_streams_frame up h [uid] s1) as Hl.
  destruct (get_live_streams up h [uid] s1) as [[ld|e] s2 evs2]; cbn in Hl;
    destruct Hl as [-> _]; run; [|done].
  destruct (ld !! uid) as [st|]; run; [|done].
  cbn. by destruct s1.
Qed.

(** The immediate check when it finds the channel live. *)
Lemma live_check_on_add_live CLIENT_ID up u channel s token m uid data st :
  let h := Headers CLIENT_ID ("Bearer " +:+ token) in
  oauth2_token up = Answer token →
  result (get_user_ids up h [channel] s) = Ok m →
  truthy (m !! channel) = Some uid →
  helix_streams up h [uid] = Answer data →
  by_user_id data !! uid = Some st →
  let r := live_check_on_add CLIENT_ID up u channel s in
  notifications (emitted r)
  = [Notification (chat_of u) (extra_urls_of (watchlists s) (chat_of u))
                  (AlreadyLive channel) (StreamBody st channel)] ∧
  live_status (final r) = <[uid := true]> (live_status s).
Proof.
  intros h Htok Hres Huid Hans Hst. unfold live_check_on_add. run.
  rewrite (run_get_app_token_answer _ token) by done. run. fold h.
  pose proof (get_user_ids_frame up h [channel] s) as Hu. cbv zeta in Hu.
  destruct (get_user_ids up h [channel] s) as [o s1 evs1]; cbn in Hu, Hres.
  subst o. destruct Hu as (Hls & Hw & _ & Hn & _). run. rewrite Huid. run.
  rewrite (run_get_live_streams_answer _ _ _ data) by done. run.
  rewrite Hst. run. cbn. rewrite Hls, Hw. split; [|done].
  rewrite !notifications_cons, !notifications_app, Hn. done.
Qed.

(** [add_channel] for a channel that is not on the list yet: append, save,
    log, reply, then the immediate check. *)
Lemma run_add_channel_new CLIENT_ID up u arg s :
  let channel := lower arg in
  let chat_id := chat_of u in
  channel ∉ channels (entry_of (watchlists s) chat_id) →
  let w' := with_channels chat_id
              (channels (entry_of (watchlists s) chat_id) ++ [channel])
              (watchlists s) in
  add_channel CLIENT_ID up u [arg] s
  = prepend [Save w'; Log (LogAdded (name_of u) chat_id channel);
             Reply chat_id (Added channel)]
      (live_check_on_add CLIENT_ID up u channel
         (set_watchlist_file w' (set_watchlists (λ _, w') s))).
Proof.
  intros channel chat_id Hnew w'. unfold add_channel. run.
  fold chat_id channel. unfold subscript. cbn [watchlists set_watchlists].
  rewrite setdefault_lookup. run.
  rewrite bool_decide_eq_true_2 by done. run.
  cbn [watchlists set_watchlists]. rewrite insert_setdefault.
  unfold say. run. fold chat_id. unfold w', with_channels.
  destruct s as [ls c w f]. unfold set_watchlists, set_watchlist_file. cbn.
  by rewrite insert_setdefault.
Qed.

End add_facts.

Lemma set_watchlists_id (f : gmap string entry → gmap string entry) s :
  f (watchlists s) = watchlists s → set_watchlists f s = s.
Proof. destruct s. unfold set_watchlists. cbn. by intros ->. Qed.

Section add_claims.
Context `{PyStr}.

(** [add_channel] for a channel that is already on the list. *)
Lemma run_add_channel_present CLIENT_ID up u arg s :
  lower arg ∈ channels (entry_of (watchlists s) (chat_of u)) →
  add_channel CLIENT_ID up u [arg] s
  = Run (Ok ()) s [Reply (chat_of u) (AlreadyInWatchlist (lower arg))].
Proof.
  intros Hin. unfold add_channel. run.
  unfold subscript. cbn [watchlists set_watchlists].
  rewrite setdefault_lookup. run.
  rewrite bool_decide_eq_false_2 by (intros Hn; by apply Hn).
  unfold say. run. f_equal. apply set_watchlists_id.
  unfold entry_of in Hin.
  destruct (watchlists s !! chat_of u) as [d|] eqn:E.
  - by eapply setdefault_present.
  - cbn in Hin. by apply elem_of_nil in Hin.
Qed.


(** C5.  A subscriber adds a channel that is not on their watchlist, and the
    immediate check finds it live (the token is granted, the name resolves
    to [uid], the poll of [uid] answers with a stream of [uid]).  Then
    exactly one notification is sent, an "already live" one to that
    subscriber about that channel; [live_status] becomes the old one with
    [uid] set to true; and a following cycle that still resolves the
    channel to [uid] and still finds [uid] in its poll sends that
    subscriber nothing about the channel. *)
Theorem add_live_channel_notifies_once
    CLIENT_ID up u arg s token m uid data st :
  let channel := lower arg in
  let chat_id := chat_of u in
  let h := Headers CLIENT_ID ("Bearer " +:+ token) in
  channel ∉ channels (entry_of (watchlists s) chat_id) →
  oauth2_token up = Answer token →
  result (get_user_ids up h [channel] s) = Ok m →
  truthy (m !! channel) = Some uid →
  helix_streams up h [uid] = Answer data →
  by_user_id data !! uid = Some st →
  let r := add_channel CLIENT_ID up u [arg] s in
  (∃ n, notifications (emitted r) = [n] ∧
        n_chat n = chat_id ∧ n_title n = AlreadyLive channel) ∧
  live_status (final r) = <[uid := true]> (live_status s) ∧
  (∀ up2 h2 m2 ld2,
     result (resolve_and_poll up2 h2 (final r)) = Ok (m2, ld2) →
     truthy (m2 !! lower channel) = Some uid →
     is_Some (ld2 !! uid) →
     silent_for (emitted (monitor_cycle up2 h2 (final r))) chat_id channel).
Proof.
  intros channel chat_id h Hnew Htok Hres Huid Hans Hst r.
  unfold r. rewrite run_add_channel_new by done. fold channel chat_id.
  set (w' := with_channels _ _ _).
  set (s1 := set_watchlist_file w' _).
  assert (Hres1 : result (get_user_ids up h [channel] s1) = Ok m).
  { by rewrite (get_user_ids_cache_only _ _ _ s1 s). }
  destruct (live_check_on_add_live CLIENT_ID up u channel s1 token m uid
              data st Htok Hres1 Huid Hans Hst) as [Hn Hls].
  assert (Hls' : live_status (final (prepend
                   [Save w'; Log (LogAdded (name_of u) chat_id channel);
                    Reply chat_id (Added channel)]
                   (live_check_on_add CLIENT_ID up u channel s1)))
                 = <[uid := true]> (live_status s)) by done.
  split_and!; [|done|].
  - eexists. split.
    + unfold prepend. cbn [emitted app].
      rewrite !notifications_cons. cbn [app]. exact Hn.
    + done.
  - intros up2 h2 m2 ld2 Hres2 Huid2 Hld2 n Hin [Hchat Hname].
    destruct (monitor_cycle_notifications up2 h2 _ m2 ld2 Hres2)
      as (Hn2 & _).
    rewrite Hn2, Hls' in Hin.
    destruct (diff_notification_inv _ _ _ _ _ _ _ _ Huid2 Hin Hchat Hname)
      as [(_ & _ & Hwas)|(_ & Hnone & _)].
    + by rewrite lookup_insert_eq in Hwas.
    + rewrite Hnone in Hld2. by eapply is_Some_None.
Qed.

(** C9.  A subscriber adds a channel that is not on their watchlist.
    Whatever Twitch answers (every request of the immediate check may
    fail), [add_channel] returns normally, the channel is at the end of the
    subscriber's list afterwards, the file holds that store, and the file
    was written before any HTTP request was made. *)
Theorem added_channel_stays_on_watchlist CLIENT_ID up u arg s :
  let channel := lower arg in
  let chat_id := chat_of u in
  channel ∉ channels (entry_of (watchlists s) chat_id) →
  let r := add_channel CLIENT_ID up u [arg] s in
  result r = Ok () ∧
  channels (entry_of (watchlists (final r)) chat_id)
  = channels (entry_of (watchlists s) chat_id) ++ [channel] ∧
  watchlist_file (final r) = Some (watchlists (final r)) ∧
  ∃ before after,
    emitted r = before ++ Save (watchlists (final r)) :: after ∧
    Forall (λ e, ¬ is_request e) before.
Proof.
  intros channel chat_id Hnew r.
  unfold r. rewrite run_add_channel_new by done. fold channel chat_id.
  set (w' := with_channels _ _ _).
  set (s1 := set_watchlist_file w' _).
  destruct (live_check_on_add_frame CLIENT_ID up u channel s1)
    as (Hres & Hw & Hf).
  unfold prepend. cbn [result final emitted]. rewrite Hw, Hf.
  split_and!; [done| |done|].
  - cbn. unfold w', with_channels, entry_of. by rewrite lookup_insert_eq.
  - exists [], (Log (LogAdded (name_of u) chat_id channel)
               :: Reply chat_id (Added channel)
               :: emitted (live_check_on_add CLIENT_ID up u channel s1)).
    split; [done|]. constructor.
Qed.

(** C10.  Adding a channel that is already on the subscriber's watchlist
    changes nothing: the whole state (store, file, snapshot, cache) is what
    it was, and the only thing sent is the reply that says so; no request,
    no notification, no file write. *)
Theorem add_present_channel_is_noop CLIENT_ID up u arg s :
  let channel := lower arg in
  let chat_id := chat_of u in
  channel ∈ channels (entry_of (watchlists s) chat_id) →
  add_channel CLIENT_ID up u [arg] s
  = Run (Ok ()) s [Reply chat_id (AlreadyInWatchlist channel)].
Proof. intros channel chat_id Hin. by apply run_add_channel_present. Qed.

(** C7.  When [get_user_ids] has names to look up and the lookup fails with
    [e], the call raises [e], and the cache (the whole state, in fact) is
    what it was before the call. *)
Theorem failed_lookup_keeps_cache up h usernames s e :
  to_fetch_of s usernames ≠ [] →
  helix_users up h (to_fetch_of s usernames) = Failure e →
  let r := get_user_ids up h usernames s in
  result r = Raise e ∧
  user_ids_cache (final r) = user_ids_cache s ∧
  final r = s.
Proof.
  intros Hne Hfail r. unfold r.
  by rewrite (get_user_ids_failure _ _ _ _ e).
Qed.

End add_claims.

(** ** The subscription store *)

Lemma no_duplicates_insert chat_id d (w : gmap string entry) :
  no_duplicates w → NoDup (channels d) → NoDup (apprise_urls d) →
  no_duplicates (<[chat_id := d]> w).
Proof.
  intros Hw Hc Ha k d'. rewrite lookup_insert.
  case_decide; [|by apply Hw]. by intros [= <-].
Qed.

Lemma no_duplicates_entry_of chat_id (w : gmap string entry) :
  no_duplicates w →
  NoDup (channels (entry_of w chat_id)) ∧
  NoDup (apprise_urls (entry_of w chat_id)).
Proof.
  intros Hw. unfold entry_of. destruct (w !! chat_id) as [d|] eqn:E; cbn.
  - by eapply Hw.
  - split; constructor.
Qed.

Lemma no_duplicates_setdefault chat_id (w : gmap string entry) :
  no_duplicates w → no_duplicates (setdefault chat_id w).
Proof.
  intros Hw. unfold setdefault. destruct (w !! chat_id); [done|].
  apply no_duplicates_insert; [done|constructor..].
Qed.

Lemma NoDup_snoc_fresh (l : list string) (x : string) :
  NoDup l → x ∉ l → NoDup (l ++ [x]).
Proof.
  intros Hl Hx. apply NoDup_app. split_and!; [done| |apply NoDup_singleton].
  intros y Hy ->%list_elem_of_singleton. done.
Qed.

Lemma elem_of_list_remove_first (x y : string) (l : list string) :
  y ∈ list_remove_first x l → y ∈ l.
Proof.
  induction l as [|z l IH]; cbn; [done|].
  case_bool_decide; [by right|].
  intros [->|Hy]%elem_of_cons; [by left|]. right. by apply IH.
Qed.

Lemma NoDup_list_remove_first (x : string) (l : list string) :
  NoDup l → NoDup (list_remove_first x l).
Proof.
  induction 1 as [|z l Hz Hl IH]; cbn; [constructor|].
  case_bool_decide; [done|]. constructor; [|done].
  intros Hin. by apply Hz, (elem_of_list_remove_first x).
Qed.

(** The state right after its store was saved. *)
Lemma store_invariant_saved w s :
  watchlists s = w → no_duplicates w →
  store_invariant (set_watchlist_file w s).
Proof. intros <- Hw. split; cbn; [done|]. by intros ? [= <-]. Qed.

Lemma store_invariant_frame s s' :
  watchlists s' = watchlists s → watchlist_file s' = watchlist_file s →
  store_invariant s → store_invariant s'.
Proof. unfold store_invariant. by intros -> ->. Qed.

Lemma start_preserves u s :
  store_invariant s → store_invariant (final (start u s)).
Proof.
  intros Hinv. pose proof (proj1 Hinv) as Hnd. unfold start. run. case_bool_decide; run; [done|].
  cbn. apply store_invariant_saved; [done|].
  apply no_duplicates_insert; [apply Hnd|constructor..].
Qed.

Section store_claims.
Context `{PyStr}.

Lemma add_channel_preserves CLIENT_ID up u args s :
  store_invariant s →
  store_invariant (final (add_channel CLIENT_ID up u args s)).
Proof.
  intros Hinv. pose proof (proj1 Hinv) as Hnd. destruct args as [|arg [|arg' args]];
    [unfold add_channel, say; by run| |unfold add_channel, say; by run].
  destruct (decide (lower arg
                    ∈ channels (entry_of (watchlists s) (chat_of u))))
    as [Hin|Hnew].
  { by rewrite run_add_channel_present. }
  rewrite run_add_channel_new by done.
  set (w' := with_channels _ _ _). set (s1 := set_watchlist_file w' _).
  destruct (live_check_on_add_frame CLIENT_ID up u (lower arg) s1)
    as (_ & Hw & Hf).
  apply (store_invariant_frame s1); [done..|].
  apply store_invariant_saved; [done|].
  destruct (no_duplicates_entry_of (chat_of u) (watchlists s)) as [Hc Ha];
    [apply Hnd|].
  apply no_duplicates_insert; [apply Hnd| |done].
  by apply NoDup_snoc_fresh.
Qed.

Lemma remove_channel_preserves u args s :
  store_invariant s → store_invariant (final (remove_channel u args s)).
Proof.
  intros Hinv. pose proof (proj1 Hinv) as Hnd. unfold remove_channel, say.
  destruct args as [|arg [|arg' args]]; run; [done| |done].
  destruct (watchlists s !! chat_of u) as [d|] eqn:E; run; [|done].
  case_bool_decide; run; [|done]. cbn.
  apply store_invariant_saved; [done|].
  apply no_duplicates_insert; [apply Hnd|..]; cbn.
  - apply NoDup_list_remove_first. by eapply Hnd.
  - by eapply Hnd.
Qed.

Lemma confirm_apprise_preserves u text pending s :
  store_invariant s →
  store_invariant (final (confirm_apprise u text pending s)).
Proof.
  intros Hinv. pose proof (proj1 Hinv) as Hnd. unfold confirm_apprise, say. case_bool_decide; run; [|done].
  destruct (truthy pending) as [url|]; run; [|done].
  unfold subscript. cbn [watchlists set_watchlists].
  rewrite setdefault_lookup. run.
  destruct (no_duplicates_entry_of (chat_of u) (watchlists s)) as [Hc Ha];
    [apply Hnd|].
  case_bool_decide; run; cbn.
  - apply store_invariant_saved; [done|].
    apply no_duplicates_insert;
      [by apply no_duplicates_setdefault|done|].
    by apply NoDup_snoc_fresh.
  - split; cbn; [by apply no_duplicates_setdefault|apply Hinv].
Qed.

Lemma remove_apprise_preserves u args s :
  store_invariant s → store_invariant (final (remove_apprise u args s)).
Proof.
  intros Hinv. pose proof (proj1 Hinv) as Hnd. unfold remove_apprise, say. run.
  destruct args as [|arg [|arg' args]]; run; [done| |done].
  destruct (py_int arg) as [index|]; run; [|done].
  case_bool_decide; run; [done|].
  destruct (_ !! Z.to_nat (index - 1)) as [url|]; run; [|done].
  unfold subscript.
  destruct (watchlists s !! chat_of u) as [d|] eqn:E; run; [|done].
  cbn. apply store_invariant_saved; [done|].
  apply no_duplicates_insert; [apply Hnd|..]; cbn.
  - by eapply Hnd.
  - eapply sublist_NoDup; [|apply sublist_delete].
    unfold extra_urls_of. rewrite E. by eapply Hnd.
Qed.

Lemma monitor_cycle_preserves up h s :
  store_invariant s → store_invariant (final (monitor_cycle up h s)).
Proof.
  intros Hinv. pose proof (resolve_and_poll_frame up h s) as Hf.
  cbv zeta in Hf.
  destruct (resolve_and_poll up h s) as [[[m ld]|e] s1 evs1] eqn:E;
    cbn in Hf; destruct Hf as (_ & Hw & Hfile & _).
  - rewrite (run_monitor_cycle_ok _ _ _ _ _ _ _ E).
    by apply (store_invariant_frame s).
  - rewrite (run_monitor_cycle_raise _ _ _ _ _ _ E).
    by apply (store_invariant_frame s).
Qed.

(** C8.  Every operation keeps the store (in memory and in the file) free
    of duplicates: if no subscriber's list of channels and no subscriber's
    list of Apprise URLs has a repeated string before the operation, none
    has one after it. *)
Theorem operations_preserve_no_duplicates CLIENT_ID o s :
  store_invariant s → store_invariant (final (perform CLIENT_ID o s)).
Proof.
  intros Hinv. destruct o; cbn [perform].
  - by apply start_preserves.
  - by apply add_channel_preserves.
  - by apply remove_channel_preserves.
  - unfold list_channels, say. run. by case_bool_decide; run.
  - by apply confirm_apprise_preserves.
  - unfold list_apprise, say. run. by case_bool_decide; run.
  - by apply remove_apprise_preserves.
  - by apply monitor_cycle_preserves.
Qed.

End store_claims.

(** ** What a cycle polls *)

Lemma elem_of_foldl_channels name (l : list entry) (acc : gset string) :
  name ∈ foldl (λ acc data, acc ∪ list_to_set (channels data)) acc l ↔
  name ∈ acc ∨ ∃ data, data ∈ l ∧ name ∈ channels data.
Proof.
  revert acc. induction l as [|d l IH]; intros acc; cbn.
  - split; [by left|]. intros [?|(? & []%elem_of_nil & _)]. done.
  - rewrite IH, elem_of_union, elem_of_list_to_set. split.
    + intros [[?|?]|(d' & ? & ?)]; [by left|right..].
      * exists d. split; [by left|done].
      * exists d'. split; [by right|done].
    + intros [?|(d' & [->|?]%elem_of_cons & ?)]; [by left; left| |].
      * left. by right.
      * right. by exists d'.
Qed.

Lemma elem_of_all_channels name (w : gmap string entry) :
  name ∈ all_channels w ↔
  ∃ chat_id data, w !! chat_id = Some data ∧ name ∈ channels data.
Proof.
  unfold all_channels. rewrite elem_of_foldl_channels. split.
  - intros [[]%not_elem_of_empty|(d & Hd & Hn)].
    apply list_elem_of_fmap in Hd as ([k d'] & -> & Hk).
    apply elem_of_map_to_list in Hk. by exists k, d'.
  - intros (k & d & Hk & Hn). right. exists d. split; [|done].
    apply list_elem_of_fmap. exists (k, d). split; [done|].
    by apply elem_of_map_to_list.
Qed.

Lemma lookup_foldl_cached (c acc : gmap string string) (us : list string) k :
  foldl (λ m u, match c !! u with
                | Some i => <[u := i]> m
                | None => m
                end) acc us !! k
  = match (if decide (k ∈ us) then c !! k else None) with
    | Some i => Some i
    | None => acc !! k
    end.
Proof.
  revert acc. induction us as [|u us IH]; intros acc; cbn.
  - rewrite decide_False by apply not_elem_of_nil. done.
  - rewrite IH. destruct (decide (k ∈ us)) as [Hin|Hnin].
    + rewrite decide_True by (by right).
      destruct (c !! k) as [i|] eqn:Ek; [done|].
      destruct (c !! u) as [j|] eqn:Eu; [|done].
      rewrite lookup_insert_ne; [done|congruence].
    + destruct (decide (k = u)) as [->|Hne].
      * rewrite decide_True by (by left).
        destruct (c !! u) as [j|]; [|done]. by rewrite lookup_insert_eq.
      * rewrite decide_False by (by intros [?|?]%elem_of_cons).
        destruct (c !! u) as [j|]; [|done]. by rewrite lookup_insert_ne.
Qed.

Lemma lookup_cached_ids (c : gmap string string) (us : list string) k uid :
  cached_ids c us !! k = Some uid ↔ k ∈ us ∧ c !! k = Some uid.
Proof.
  unfold cached_ids. rewrite lookup_foldl_cached, lookup_empty.
  destruct (decide (k ∈ us)); [destruct (c !! k)|]; intuition congruence.
Qed.

Lemma polled_ids_bind {A} (l : list A) (f : A → list event) :
  polled_ids (l ≫= f) = l ≫= (λ x, polled_ids (f x)).
Proof.
  induction l as [|x l IH]; [done|].
  cbn. by rewrite polled_ids_app, IH.
Qed.

Lemma polled_ids_get_live_streams up h ids s :
  polled_ids (emitted (get_live_streams up h ids s)) = ids.
Proof.
  destruct ids as [|i ids]; [done|].
  destruct (helix_streams up h (i :: ids)) as [data|e] eqn:E.
  - rewrite (run_get_live_streams_answer _ _ _ data) by done. cbn.
    rewrite polled_ids_cons. apply app_nil_r.
  - rewrite (run_get_live_streams_failure _ _ _ e) by done. cbn.
    rewrite polled_ids_cons. apply app_nil_r.
Qed.

Section poll_facts.
Context `{PyStr}.

Lemma polled_ids_diff_events m ld ls (w : gmap string entry) :
  polled_ids (diff_events m ld ls w) = [].
Proof.
  unfold diff_events. rewrite polled_ids_bind.
  apply bind_all_nil. intros [chat_id data] _. rewrite polled_ids_bind.
  apply bind_all_nil. intros username _. unfold channel_events.
  destruct (truthy _) as [uid|]; [|done].
  by destruct (ld !! uid), (default false (ls !! uid)).
Qed.

Lemma get_user_ids_result up h usernames s m :
  result (get_user_ids up h usernames s) = Ok m →
  m = cached_ids (user_ids_cache (final (get_user_ids up h usernames s)))
                 (lower <$> usernames).
Proof.
  destruct (decide (to_fetch_of s usernames = [])) as [Hnil|Hne].
  { rewrite get_user_ids_cached by done. cbn. congruence. }
  destruct (helix_users up h (to_fetch_of s usernames)) as [data|e] eqn:E.
  - rewrite (get_user_ids_answer _ _ _ _ data) by done. cbn. congruence.
  - by rewrite (get_user_ids_failure _ _ _ _ e).
Qed.

Lemma polled_ids_resolve_and_poll up h s :
  polled_ids (emitted (resolve_and_poll up h s))
  = match result (get_user_ids up h
                    (elements (all_channels (watchlists s))) s) with
    | Ok m => (map_to_list m).*2
    | Raise _ => []
    end.
Proof.
  unfold resolve_and_poll. run.
  pose proof (get_user_ids_frame up h
                (elements (all_channels (watchlists s))) s) as Hu.
  cbv zeta in Hu.
  destruct (get_user_ids up h _ s) as [[m|e] s1 evs1]; cbn in Hu;
    destruct Hu as (_ & _ & _ & _ & Hp); run; [|done].
  pose proof (polled_ids_get_live_streams up h ((map_to_list m).*2) s1)
    as Hl.
  destruct (get_live_streams up h _ s1) as [[ld|e] s2 evs2]; cbn in Hl;
    run; cbn; by rewrite ?app_nil_r, polled_ids_app, Hp, Hl.
Qed.

Lemma polled_ids_monitor_cycle up h s :
  polled_ids (emitted (monitor_cycle up h s))
  = polled_ids (emitted (resolve_and_poll up h s)).
Proof.
  destruct (resolve_and_poll up h s) as [[[m ld]|e] s1 evs1] eqn:E.
  - rewrite (run_monitor_cycle_ok _ _ _ _ _ _ _ E). cbn.
    rewrite polled_ids_cons, polled_ids_app, polled_ids_diff_events.
    apply app_nil_r.
  - rewrite (run_monitor_cycle_raise _ _ _ _ _ _ E). cbn.
    rewrite polled_ids_cons, polled_ids_app. apply app_nil_r.
Qed.

(** C6, amended.  In every cycle, the ids handed to the poll are exactly
    the ids that the cycle's resolve step returns for the names on the
    subscribers' watchlists, as the store holds them when the cycle starts.
    A watched name to which the resolve step gives no id is not polled, and
    nothing is polled when the resolve step fails. *)
Theorem polled_ids_are_resolved_watched_ids up h s uid :
  uid ∈ polled_ids (emitted (monitor_cycle up h s)) ↔
  ∃ m chat_id data name,
    result (get_user_ids up h (elements (all_channels (watchlists s))) s)
    = Ok m ∧
    watchlists s !! chat_id = Some data ∧ name ∈ channels data ∧
    m !! lower name = Some uid.
Proof.
  rewrite polled_ids_monitor_cycle, polled_ids_resolve_and_poll.
  destruct (result (get_user_ids up h _ s)) as [m|e] eqn:Hres.
  2: { split; [by intros ?%elem_of_nil|]. by intros (? & ? & ? & ? & ? & _). }
  rewrite list_elem_of_fmap. split.
  - intros ([k uid'] & -> & Hk%elem_of_map_to_list). cbn.
    rewrite (get_user_ids_result _ _ _ _ _ Hres) in Hk.
    apply lookup_cached_ids in Hk as [Hin Hc].
    apply list_elem_of_fmap in Hin as (name & -> & Hname).
    apply elem_of_elements, elem_of_all_channels in Hname
      as (chat_id & data & Hw & Hn).
    exists m, chat_id, data, name. split_and!; [done..|].
    rewrite (get_user_ids_result _ _ _ _ _ Hres).
    apply lookup_cached_ids. split; [|done].
    apply list_elem_of_fmap. exists name. split; [done|].
    apply elem_of_elements, elem_of_all_channels. eauto.
  - intros (m' & chat_id & data & name & [= <-] & Hw & Hn & Hm).
    exists (lower name, uid). split; [done|]. by apply elem_of_map_to_list.
Qed.

End poll_facts.

(** ** The monitor thread *)

Section thread_facts.
Context `{PyStr}.

(** Once the loop runs, no tick ends it: every cycle returns normally. *)
Lemma monitor_loop_keeps_running h (ticks : list upstream) s :
  result (for_each ticks (λ up, monitor_cycle up h) s) = Ok ().
Proof.
  revert s. induction ticks as [|up ticks IH]; intros s; [done|].
  run. pose proof (monitor_cycle_returns up h s) as Hret.
  destruct (monitor_cycle up h s) as [o s1 evs1]. cbn in Hret. subst o.
  run. apply IH.
Qed.

Lemma monitor_twitch_with_token CLIENT_ID up0 ticks s token :
  oauth2_token up0 = Answer token →
  result (monitor_twitch CLIENT_ID up0 ticks s) = Ok ().
Proof.
  intros Htok. unfold monitor_twitch. run.
  rewrite (run_get_app_token_answer _ token) by done. run.
  apply monitor_loop_keeps_running.
Qed.

(** Without the initial token the thread dies before the loop is entered,
    however many ticks would follow. *)
Lemma monitor_twitch_without_token CLIENT_ID up0 ticks s e :
  oauth2_token up0 = Failure e →
  monitor_twitch CLIENT_ID up0 ticks s
  = Run (Raise e) s
        [Log LogMonitorStarted; Log LogRequestingToken; Http PostToken].
Proof.
  intros Htok. unfold monitor_twitch. run.
  rewrite (run_get_app_token_failure _ e) by done. by run.
Qed.

End thread_facts.

(** ** The setting at work *)

Module DemoFacts.
Import Demo.

(** C4, at the failing input.  Twitch is unreachable when the thread starts
    and reachable at the two ticks that follow: [monitor_twitch] ends with
    the exception of the token request, and no cycle has run (nothing was
    polled, nothing logged after the request). *)
Lemma monitor_dies_without_token :
  @monitor_twitch ascii_str "client" twitch_down
    [twitch_alice_live; twitch_alice_live] (fresh (watching ["alice"]))
  = Run (Raise ConnectionError) (fresh (watching ["alice"]))
        [Log LogMonitorStarted; Log LogRequestingToken; Http PostToken].
Proof. vm_compute. reflexivity. Qed.

(** C6, as stated, fails: a subscriber watches [ghost], a name Twitch does
    not know; the cycle resolves nothing and polls nothing. *)
Lemma ghost_channel_is_not_polled :
  ¬ @polled_equals_watched ascii_str twitch_quiet hdr
      (fresh (watching ["ghost"])).
Proof.
  intros [Hall _]. destruct (Hall "ghost") as (uid & _ & Hin).
  - apply elem_of_all_channels. exists "42", (Entry ["ghost"] []).
    split; [reflexivity|left].
  - vm_compute in Hin. by apply elem_of_nil in Hin.
Qed.

(** One subscriber watching [alice] and [bob]; Twitch knows [alice], who is
    live: the cycle tells the subscriber that [alice] is now live. *)
Lemma cycle_emits_exactly_the_transitions_witness :
  emits (emitted (@monitor_cycle ascii_str twitch_alice_live hdr
                    (fresh (watching ["alice"; "bob"]))))
        "42" (NowLive "alice").
Proof.
  destruct (@cycle_emits_exactly_the_transitions ascii_str
              twitch_alice_live hdr (fresh (watching ["alice"; "bob"]))
              {["alice" := "1001"]} {["1001" := alice_stream]}
              "42" (Entry ["alice"; "bob"] []) "alice" "1001")
    as (_ & Hlive & _).
  - vm_compute. reflexivity.
  - vm_compute. reflexivity.
  - left.
  - vm_compute. reflexivity.
  - apply Hlive. split; [right|]; vm_compute; reflexivity.
Defined.

(** [alice] is cached and known live; Twitch is unreachable: the poll
    fails, and the snapshot still says that [1001] is live. *)
Lemma failed_cycle_keeps_snapshot_witness :
  live_status
    (final (@monitor_cycle ascii_str twitch_down hdr
              (State {["1001" := true]} {["alice" := "1001"]}
                     (watching ["alice"]) None)))
  = {["1001" := true]}.
Proof.
  destruct (@failed_cycle_keeps_snapshot ascii_str twitch_down hdr
              (State {["1001" := true]} {["alice" := "1001"]}
                     (watching ["alice"]) None)
              ConnectionError twitch_quiet ∅ ∅)
    as (_ & _ & _ & Hls & _).
  - vm_compute. reflexivity.
  - exact Hls.
Defined.

(** [alice] is live at two cycles in a row: the second one is silent. *)
Lemma second_identical_cycle_is_silent_witness :
  notifications
    (emitted
       (@monitor_cycle ascii_str twitch_alice_live hdr
          (final (@monitor_cycle ascii_str twitch_alice_live hdr
                    (fresh (watching ["alice"; "bob"]))))))
  = [].
Proof.
  apply (@second_identical_cycle_is_silent ascii_str
           twitch_alice_live twitch_alice_live hdr
           (fresh (watching ["alice"; "bob"]))
           {["alice" := "1001"]} {["alice" := "1001"]}
           {["1001" := alice_stream]}).
  - vm_compute. reflexivity.
  - vm_compute. reflexivity.
Defined.

(** A first [/add Alice] while [alice] is live seeds the snapshot. *)
Lemma add_live_channel_notifies_once_witness :
  live_status
    (final (@add_channel ascii_str "client" twitch_alice_live me ["Alice"]
              (fresh ∅)))
  = <["1001" := true]> ∅.
Proof.
  destruct (@add_live_channel_notifies_once ascii_str "client"
              twitch_alice_live me "Alice" (fresh ∅) "token"
              {["alice" := "1001"]} "1001" [alice_stream] alice_stream)
    as (_ & Hls & _).
  - vm_compute. apply not_elem_of_nil.
  - reflexivity.
  - vm_compute. reflexivity.
  - vm_compute. reflexivity.
  - vm_compute. reflexivity.
  - vm_compute. reflexivity.
  - exact Hls.
Defined.

(** The subscriber watches [alice] and [bob].  [alice] goes live, then
    offline, then live again: one notification each time, none for [bob]. *)
Example alice_on_off_on :
  let s0 := fresh (watching ["alice"; "bob"]) in
  let r1 := @monitor_cycle ascii_str twitch_alice_live hdr s0 in
  let r2 := @monitor_cycle ascii_str twitch_quiet hdr (final r1) in
  let r3 := @monitor_cycle ascii_str twitch_alice_live hdr (final r2) in
  n_title <$> notifications (emitted r1) = [NowLive "alice"] ∧
  n_title <$> notifications (emitted r2) = [GoneOffline "alice"] ∧
  n_title <$> notifications (emitted r3) = [NowLive "alice"].
Proof. vm_compute. done. Qed.

(** The id of [alice] is polled, since somebody watches [alice]. *)
Example alice_is_polled :
  polled_ids (emitted (@monitor_cycle ascii_str twitch_alice_live hdr
                         (fresh (watching ["alice"; "bob"]))))
  = ["1001"].
Proof. vm_compute. reflexivity. Qed.

(** The lookup of [alice] fails: nothing enters the cache. *)
Lemma failed_lookup_keeps_cache_witness :
  user_ids_cache
    (final (@get_user_ids ascii_str twitch_down hdr ["alice"] (fresh ∅)))
  = ∅.
Proof.
  destruct (@failed_lookup_keeps_cache ascii_str twitch_down hdr ["alice"]
              (fresh ∅) ConnectionError) as (_ & Hc & _).
  - vm_compute. discriminate.
  - reflexivity.
  - exact Hc.
Defined.

(** [/add bob] on a store without duplicates leaves one without. *)
Lemma operations_preserve_no_duplicates_witness :
  store_invariant
    (final (@perform ascii_str "client"
              (OpAdd twitch_alice_live me ["bob"])
              (fresh (watching ["alice"])))).
Proof.
  apply (@operations_preserve_no_duplicates ascii_str).
  assert (Hw : no_duplicates (watching ["alice"])).
  { unfold watching.
    intros chat_id data [<- <-]%lookup_singleton_Some.
    split; [apply NoDup_singleton|apply NoDup_nil_2]. }
  split; [exact Hw|]. intros w [= <-]. exact Hw.
Defined.

(** [/add Alice] while Twitch is unreachable: the handler returns, and
    [alice] is on the list. *)
Lemma added_channel_stays_on_watchlist_witness :
  let r := @add_channel ascii_str "client" twitch_down me ["Alice"]
             (fresh ∅) in
  result r = Ok () ∧ channels (entry_of (watchlists (final r)) "42") = ["alice"].
Proof.
  destruct (@added_channel_stays_on_watchlist ascii_str "client"
              twitch_down me "Alice" (fresh ∅)) as (Hres & Hch & _).
  - vm_compute. apply not_elem_of_nil.
  - split; [exact Hres|exact Hch].
Defined.

(** [/add ALICE] when [alice] is on the list already. *)
Lemma add_present_channel_is_noop_witness :
  @add_channel ascii_str "client" twitch_alice_live me ["ALICE"]
    (fresh (watching ["alice"]))
  = Run (Ok ()) (fresh (watching ["alice"]))
        [Reply "42" (AlreadyInWatchlist "alice")].
Proof.
  apply (@add_present_channel_is_noop ascii_str "client"
           twitch_alice_live me "ALICE" (fresh (watching ["alice"]))).
  vm_compute. left.
Defined.

End DemoFacts.

(** * Further properties of the script *)

(** ** The resolver cache *)

Lemma dom_store_users (data : list user) (c : gmap string string) :
  dom c ⊆ dom (store_users data c).
Proof.
  revert c. induction data as [|u data IH]; intros c; cbn; [done|].
  etrans; [|apply IH]. rewrite dom_insert_L. set_solver.
Qed.

Lemma lookup_store_users_other (data : list user) (c : gmap string string) k :
  (∀ u, u ∈ data → login u ≠ k) → store_users data c !! k = c !! k.
Proof.
  unfold store_users.
  revert c. induction data as [|u data IH]; intros c Hk; cbn; [done|].
  rewrite IH by (intros; apply Hk; by right).
  apply lookup_insert_ne. apply Hk. by left.
Qed.

Section cache_properties.
Context `{PyStr}.

Lemma to_fetch_of_not_cached s usernames k :
  k ∈ to_fetch_of s usernames →
  (k ∉ dom (user_ids_cache s)) ∧ k ∈ (lower <$> usernames).
Proof. unfold to_fetch_of. by intros ?%list_elem_of_filter. Qed.

(** X1.  Whatever Twitch answers, [get_user_ids] never drops a name from
    the cache. *)
Theorem cache_never_forgets up h usernames s :
  dom (user_ids_cache s)
  ⊆ dom (user_ids_cache (final (get_user_ids up h usernames s))).
Proof.
  destruct (decide (to_fetch_of s usernames = [])) as [Hnil|Hne].
  { by rewrite get_user_ids_cached. }
  destruct (helix_users up h (to_fetch_of s usernames)) as [data|e] eqn:E.
  - rewrite (get_user_ids_answer _ _ _ _ data) by done. cbn.
    apply dom_store_users.
  - by rewrite (get_user_ids_failure _ _ _ _ e).
Qed.

(** X2.  When the answer of [helix/users] names requested logins only, no
    cached id ever changes: the old cache is included in the new one. *)
Theorem cache_is_append_only up h usernames s :
  (∀ data, helix_users up h (to_fetch_of s usernames) = Answer data →
           only_requested (to_fetch_of s usernames) data) →
  user_ids_cache s
  ⊆ user_ids_cache (final (get_user_ids up h usernames s)).
Proof.
  intros Honest.
  destruct (decide (to_fetch_of s usernames = [])) as [Hnil|Hne].
  { by rewrite get_user_ids_cached. }
  destruct (helix_users up h (to_fetch_of s usernames)) as [data|e] eqn:E.
  2: { by rewrite (get_user_ids_failure _ _ _ _ e). }
  rewrite (get_user_ids_answer _ _ _ _ data) by done. cbn.
  apply map_subseteq_spec. intros k uid Hk.
  rewrite lookup_store_users_other; [done|].
  intros u Hu <-.
  apply (Honest data eq_refl), to_fetch_of_not_cached in Hu as [Hn _].
  apply Hn, elem_of_dom. eauto.
Qed.

(** X3.  The map that [get_user_ids] returns holds exactly the lowercased
    requested names that the cache knows after the call, each with the id
    the cache gives it; names Twitch did not find are left out. *)
Theorem get_user_ids_returns_known_names up h usernames s m k uid :
  result (get_user_ids up h usernames s) = Ok m →
  m !! k = Some uid ↔
  k ∈ (lower <$> usernames) ∧
  user_ids_cache (final (get_user_ids up h usernames s)) !! k = Some uid.
Proof.
  intros Hres. rewrite (get_user_ids_result _ _ _ _ _ Hres) at 1.
  apply lookup_cached_ids.
Qed.


(** X5.  When every requested name is in the cache already, [get_user_ids]
    sends nothing, logs nothing and leaves the state as it is. *)
Theorem get_user_ids_all_cached_is_silent up h usernames s :
  (∀ u, u ∈ usernames → lower u ∈ dom (user_ids_cache s)) →
  get_user_ids up h usernames s
  = Run (Ok (cached_ids (user_ids_cache s) (lower <$> usernames))) s [].
Proof.
  intros Hall. apply get_user_ids_cached.
  apply elem_of_nil_inv. intros k [Hn Hk]%to_fetch_of_not_cached.
  apply list_elem_of_fmap in Hk as (u & -> & Hu). by apply Hn, Hall.
Qed.

End cache_properties.

(** ** The poller *)

Lemma lookup_foldl_by_user_id (data : list stream)
    (acc : gmap string stream) uid st :
  foldl (λ m s, <[user_id s := s]> m) acc data !! uid = Some st →
  (st ∈ data ∧ user_id st = uid) ∨ acc !! uid = Some st.
Proof.
  revert acc. induction data as [|s0 data IH]; intros acc; cbn; [by right|].
  intros [[Hin Hid]|Hacc]%IH.
  - left. split; [by right|done].
  - destruct (decide (user_id s0 = uid)) as [<-|Hne].
    + rewrite lookup_insert_eq in Hacc. injection Hacc as <-.
      left. split; [by left|done].
    + rewrite lookup_insert_ne in Hacc by done. by right.
Qed.

Lemma is_Some_foldl_by_user_id (data : list stream)
    (acc : gmap string stream) uid :
  is_Some (foldl (λ m s, <[user_id s := s]> m) acc data !! uid) ↔
  (∃ st, st ∈ data ∧ user_id st = uid) ∨ is_Some (acc !! uid).
Proof.
  revert acc. induction data as [|s0 data IH]; intros acc; cbn.
  - split; [by right|]. intros [(? & []%elem_of_nil & _)|?]. done.
  - rewrite IH, lookup_insert. split.
    + intros [(st & Hin & Hid)|Hs].
      * left. exists st. split; [by right|done].
      * case_decide; [|by right]. left. exists s0. split; [by left|done].
    + intros [(st & [->|Hin]%elem_of_cons & Hid)|Hs].
      * right. by rewrite decide_True.
      * left. by exists st.
      * right. case_decide; [by eexists|done].
Qed.

(** X6.  [get_live_streams] files every stream under its own [user_id]: an
    id is a key of the result exactly when Twitch returned a stream of that
    id, the record found under it is one of the returned streams of that
    id, and the state is left untouched. *)
Theorem get_live_streams_keys up h user_ids s ld :
  result (get_live_streams up h user_ids s) = Ok ld →
  final (get_live_streams up h user_ids s) = s ∧
  ∃ data,
    (user_ids = [] ∧ data = [] ∨
     user_ids ≠ [] ∧ helix_streams up h user_ids = Answer data) ∧
    (∀ uid, is_Some (ld !! uid) ↔ ∃ st, st ∈ data ∧ user_id st = uid) ∧
    (∀ uid st, ld !! uid = Some st → st ∈ data ∧ user_id st = uid).
Proof.
  intros Hres. split; [apply get_live_streams_frame|].
  assert (Hld : ∀ data, ld = by_user_id data →
    (∀ uid, is_Some (ld !! uid) ↔ ∃ st, st ∈ data ∧ user_id st = uid) ∧
    (∀ uid st, ld !! uid = Some st → st ∈ data ∧ user_id st = uid)).
  { intros data ->. unfold by_user_id. split.
    - intros uid. rewrite is_Some_foldl_by_user_id, lookup_empty.
      split; [intros [?|[]%is_Some_None]|]; eauto.
    - intros uid st [?|Hemp]%lookup_foldl_by_user_id; [done|].
      by rewrite lookup_empty in Hemp. }
  destruct user_ids as [|i ids].
  { exists []. rewrite run_get_live_streams_empty in Hres.
    injection Hres as <-. split; [by left|]. by apply Hld. }
  destruct (helix_streams up h (i :: ids)) as [data|e] eqn:E.
  - rewrite (run_get_live_streams_answer _ _ _ data) in Hres by done.
    injection Hres as <-. exists data. split; [by right|]. by apply Hld.
  - by rewrite (run_get_live_streams_failure _ _ _ e) in Hres.
Qed.

(** ** What each operation does to the globals *)

Lemma kept_or_saved_refl s : kept_or_saved s s.
Proof. by left. Qed.

Lemma start_effect u s :
  let r := start u s in
  result r = Ok () ∧ kept_or_saved s (final r) ∧
  live_status (final r) = live_status s.
Proof.
  unfold start. run. case_bool_decide; run; cbn.
  - split_and!; [done|by left|done].
  - split_and!; [done|by right|done].
Qed.

Section effects.
Context `{PyStr}.

(** The snapshot after the immediate check: unchanged, or one id set to
    true. *)
Lemma live_check_on_add_snapshot CLIENT_ID up u channel s :
  let r := live_check_on_add CLIENT_ID up u channel s in
  live_status (final r) = live_status s ∨
  ∃ uid, live_status (final r) = <[uid := true]> (live_status s).
Proof.
  unfold live_check_on_add. run.
  destruct (oauth2_token up) as [token|e] eqn:Htok.
  2: { rewrite (run_get_app_token_failure _ e) by done. run. by left. }
  rewrite (run_get_app_token_answer _ token) by done. run.
  set (h := Headers CLIENT_ID ("Bearer " +:+ token)).
  pose proof (get_user_ids_frame up h [channel] s) as Hu. cbv zeta in Hu.
  destruct (get_user_ids up h [channel] s) as [[m|e] s1 evs1]; cbn in Hu;
    destruct Hu as (Hls & _); run; [|by left].
  destruct (truthy (m !! channel)) as [uid|]; run; [|by left].
  pose proof (get_live_streams_frame up h [uid] s1) as Hl.
  destruct (get_live_streams up h [uid] s1) as [[ld|e] s2 evs2]; cbn in Hl;
    destruct Hl as [-> _]; run; [|by left].
  destruct (ld !! uid) as [st|]; run; [|by left].
  right. exists uid. cbn. by rewrite Hls.
Qed.

Lemma add_channel_effect CLIENT_ID up u args s :
  let r := add_channel CLIENT_ID up u args s in
  result r = Ok () ∧ kept_or_saved s (final r) ∧
  (live_status (final r) = live_status s ∨
   ∃ uid, live_status (final r) = <[uid := true]> (live_status s)).
Proof.
  destruct args as [|arg [|arg' args]];
    [unfold add_channel; run; split_and!; [done|by left..]|
    |unfold add_channel; run; split_and!; [done|by left..]].
  destruct (decide (lower arg
                    ∈ channels (entry_of (watchlists s) (chat_of u))))
    as [Hin|Hnew].
  { rewrite run_add_channel_present by done. cbn.
    split_and!; [done|by left..]. }
  rewrite run_add_channel_new by done.
  set (w' := with_channels _ _ _). set (s1 := set_watchlist_file w' _).
  destruct (live_check_on_add_frame CLIENT_ID up u (lower arg) s1)
    as (Hres & Hw & Hf).
  pose proof (live_check_on_add_snapshot CLIENT_ID up u (lower arg) s1)
    as Hls.
  unfold prepend. cbn [result final]. split_and!; [done| |done].
  right. by rewrite Hf, Hw.
Qed.

Lemma remove_channel_effect u args s :
  let r := remove_channel u args s in
  result r = Ok () ∧ kept_or_saved s (final r) ∧
  live_status (final r) = live_status s.
Proof.
  unfold remove_channel.
  destruct args as [|arg [|arg' args]]; run;
    [split_and!; [done|by left|done]| |split_and!; [done|by left|done]].
  destruct (watchlists s !! chat_of u) as [d|] eqn:E; run;
    [|split_and!; [done|by left|done]].
  case_bool_decide; run; cbn.
  - split_and!; [done|by right|done].
  - split_and!; [done|by left|done].
Qed.

Lemma confirm_apprise_effect u text pending s :
  let r := confirm_apprise u text pending s in
  result r = Ok () ∧ kept_or_saved s (final r) ∧
  live_status (final r) = live_status s.
Proof.
  unfold confirm_apprise. case_bool_decide; run;
    [|split_and!; [done|by left|done]].
  destruct (truthy pending) as [url|]; run;
    [|split_and!; [done|by left|done]].
  unfold subscript. cbn [watchlists set_watchlists].
  rewrite setdefault_lookup. run.
  case_bool_decide as Hurl; run; cbn.
  - split_and!; [done|by right|done].
  - split_and!; [done| |done]. left. split; [|done].
    unfold entry_of in Hurl.
    destruct (watchlists s !! chat_of u) as [d|] eqn:E.
    + by eapply setdefault_present.
    + cbn in Hurl. by apply elem_of_nil in Hurl.
Qed.

Lemma remove_apprise_effect u args s :
  let r := remove_apprise u args s in
  result r = Ok () ∧ kept_or_saved s (final r) ∧
  live_status (final r) = live_status s.
Proof.
  unfold remove_apprise. run.
  destruct args as [|arg [|arg' args]]; run;
    [split_and!; [done|by left|done]| |split_and!; [done|by left|done]].
  destruct (py_int arg) as [index|]; run;
    [|split_and!; [done|by left|done]].
  case_bool_decide as Hrange; run; [split_and!; [done|by left|done]|].
  destruct (lookup_lt_is_Some_2 (extra_urls_of (watchlists s) (chat_of u))
              (Z.to_nat (index - 1))) as [url Hurl]; [lia|].
  rewrite Hurl. run. unfold subscript.
  destruct (watchlists s !! chat_of u) as [d|] eqn:E.
  - run. cbn. split_and!; [done|by right|done].
  - unfold extra_urls_of in Hurl. rewrite E in Hurl. done.
Qed.

Lemma monitor_cycle_effect up h s :
  let r := monitor_cycle up h s in
  result r = Ok () ∧ kept_or_saved s (final r) ∧
  (live_status (final r) = live_status s ∨
   ∃ ld, live_status (final r) = current_live_of ld).
Proof.
  pose proof (resolve_and_poll_frame up h s) as Hf. cbv zeta in Hf.
  destruct (resolve_and_poll up h s) as [[[m ld]|e] s1 evs1] eqn:E;
    cbn in Hf; destruct Hf as (Hls & Hw & Hfile & _).
  - rewrite (run_monitor_cycle_ok _ _ _ _ _ _ _ E). cbn.
    split_and!; [done|by left|]. right. by exists ld.
  - rewrite (run_monitor_cycle_raise _ _ _ _ _ _ E). cbn.
    split_and!; [done|by left|by left].
Qed.

(** What every operation has in common. *)
Lemma perform_effect CLIENT_ID o s :
  let r := perform CLIENT_ID o s in
  result r = Ok () ∧ kept_or_saved s (final r) ∧
  (live_status (final r) = live_status s ∨
   (∃ uid, live_status (final r) = <[uid := true]> (live_status s)) ∨
   ∃ ld, live_status (final r) = current_live_of ld).
Proof.
  destruct o; cbn [perform].
  - destruct (start_effect u s) as (? & ? & ?). by split_and!; [..|left].
  - destruct (add_channel_effect CLIENT_ID up u args s) as (? & ? & [?|?]).
    + by split_and!; [..|left].
    + by split_and!; [..|right; left].
  - destruct (remove_channel_effect u args s) as (? & ? & ?).
    by split_and!; [..|left].
  - unfold list_channels. run. case_bool_decide; run; cbn;
      by split_and!; [|left|left].
  - destruct (confirm_apprise_effect u text pending s) as (? & ? & ?).
    by split_and!; [..|left].
  - unfold list_apprise. run. case_bool_decide; run; cbn;
      by split_and!; [|left|left].
  - destruct (remove_apprise_effect u args s) as (? & ? & ?).
    by split_and!; [..|left].
  - destruct (monitor_cycle_effect up h s) as (? & ? & [?|?]).
    + by split_and!; [..|left].
    + by split_and!; [..|right; right].
Qed.

(** X7.  No handler and no cycle lets an exception escape: the [KeyError]
    and [IndexError] that the subscripts and [pop] could raise are excluded
    by the checks made before them, and every exception of [requests] is
    caught. *)
Theorem every_operation_returns CLIENT_ID o s :
  result (perform CLIENT_ID o s) = Ok ().
Proof. apply perform_effect. Qed.

Lemma all_true_step CLIENT_ID o s :
  all_true (live_status s) →
  all_true (live_status (final (perform CLIENT_ID o s))).
Proof.
  intros Hall.
  destruct (perform_effect CLIENT_ID o s)
    as (_ & _ & [Hls|[[uid Hls]|[ld Hls]]]); rewrite Hls; [done| |].
  - intros k b. rewrite lookup_insert. case_decide; [congruence|apply Hall].
  - intros k b. rewrite lookup_current_live_of.
    destruct (ld !! k); cbn; congruence.
Qed.

Lemma in_sync_step CLIENT_ID o s :
  in_sync s → in_sync (final (perform CLIENT_ID o s)).
Proof.
  unfold in_sync. intros Hsync.
  destruct (perform_effect CLIENT_ID o s) as (_ & [[Hw Hf]|Hf] & _).
  - by rewrite Hw, Hf.
  - by rewrite Hf.
Qed.

(** X8.  [live_status] never holds a false entry: if every entry says
    "live" before an operation, every entry says so after it. *)
Theorem snapshot_holds_only_true CLIENT_ID o s :
  all_true (live_status s) →
  all_true (live_status (final (perform CLIENT_ID o s))).
Proof. apply all_true_step. Qed.

(** X9.  The file follows the store: if a restart would load what the
    process holds before an operation, it would load what the process holds
    after it. *)
Theorem file_follows_store CLIENT_ID o s :
  in_sync s → in_sync (final (perform CLIENT_ID o s)).
Proof. apply in_sync_step. Qed.

(** X10.  From the start of the process on, whatever the file held and
    whatever operations follow in whatever order: a restart would load the
    store that the process holds, and the snapshot has no false entry. *)
Theorem process_keeps_file_and_snapshot CLIENT_ID file ops :
  let s := perform_all CLIENT_ID ops (startup file) in
  in_sync s ∧ all_true (live_status s).
Proof.
  cbv zeta. unfold perform_all.
  assert (Hstart : in_sync (startup file) ∧
                   all_true (live_status (startup file))).
  { split; [done|]. intros uid b. cbn. by rewrite lookup_empty. }
  revert Hstart. generalize (startup file).
  induction ops as [|o ops IH]; intros s [Hsync Hall]; [done|].
  cbn. apply IH. split; [by apply in_sync_step|by apply all_true_step].
Qed.

End effects.

(** ** What a cycle and the thread emit *)

Lemma polls_started_app l1 l2 :
  polls_started (l1 ++ l2) = polls_started l1 + polls_started l2.
Proof. unfold polls_started. by rewrite omap_app, length_app. Qed.

Lemma token_requests_app l1 l2 :
  token_requests (l1 ++ l2) = token_requests l1 + token_requests l2.
Proof. unfold token_requests. by rewrite omap_app, length_app. Qed.

Lemma inside_cycle_counts h evs :
  Forall (inside_cycle h) evs →
  polls_started evs = 0 ∧ token_requests evs = 0.
Proof.
  induction 1 as [|e evs He _ [IHp IHt]]; [done|].
  change (e :: evs) with ([e] ++ evs).
  rewrite polls_started_app, token_requests_app, IHp, IHt.
  destruct e as [[]|[]| | |]; done.
Qed.

Lemma inside_get_live_streams up h ids s :
  Forall (inside_cycle h) (emitted (get_live_streams up h ids s)).
Proof.
  destruct ids as [|i ids]; [constructor|].
  destruct (helix_streams up h (i :: ids)) as [data|e] eqn:E.
  - rewrite (run_get_live_streams_answer _ _ _ data) by done.
    by repeat constructor.
  - rewrite (run_get_live_streams_failure _ _ _ e) by done.
    by repeat constructor.
Qed.

Section shape.
Context `{PyStr}.

Lemma inside_get_user_ids up h usernames s :
  Forall (inside_cycle h) (emitted (get_user_ids up h usernames s)).
Proof.
  destruct (decide (to_fetch_of s usernames = [])) as [Hnil|Hne].
  { rewrite get_user_ids_cached by done. constructor. }
  destruct (helix_users up h (to_fetch_of s usernames)) as [data|e] eqn:E.
  - rewrite (get_user_ids_answer _ _ _ _ data) by done. cbn.
    repeat constructor. apply Forall_fmap, Forall_forall. by intros u _.
  - rewrite (get_user_ids_failure _ _ _ _ e) by done.
    by repeat constructor.
Qed.

Lemma inside_resolve_and_poll up h s :
  Forall (inside_cycle h) (emitted (resolve_and_poll up h s)).
Proof.
  unfold resolve_and_poll. run.
  pose proof (inside_get_user_ids up h
                (elements (all_channels (watchlists s))) s) as Hu.
  destruct (get_user_ids up h _ s) as [[m|e] s1 evs1]; cbn in Hu; run;
    [|done].
  pose proof (inside_get_live_streams up h ((map_to_list m).*2) s1) as Hl.
  destruct (get_live_streams up h _ s1) as [[ld|e] s2 evs2]; cbn in Hl;
    run; cbn; rewrite ?app_nil_r; by apply Forall_app.
Qed.

Lemma inside_diff_events h m ld ls (w : gmap string entry) :
  Forall (inside_cycle h) (diff_events m ld ls w).
Proof.
  unfold diff_events. apply Forall_bind, Forall_forall.
  intros [chat_id data] _. cbn. apply Forall_bind, Forall_forall.
  intros username _. cbn. unfold channel_events.
  destruct (truthy _) as [uid|]; [|constructor].
  destruct (ld !! uid), (default false (ls !! uid)); by repeat constructor.
Qed.

Lemma monitor_cycle_shape up h s :
  ∃ rest,
    emitted (monitor_cycle up h s) = Log LogPolling :: rest ∧
    Forall (inside_cycle h) rest.
Proof.
  pose proof (inside_resolve_and_poll up h s) as Hin.
  destruct (resolve_and_poll up h s) as [[[m ld]|e] s1 evs1] eqn:E;
    cbn in Hin.
  - rewrite (run_monitor_cycle_ok _ _ _ _ _ _ _ E). eexists. split; [done|].
    apply Forall_app. split; [done|apply inside_diff_events].
  - rewrite (run_monitor_cycle_raise _ _ _ _ _ _ E). eexists. split; [done|].
    apply Forall_app. split; [done|by repeat constructor].
Qed.

(** X11.  A cycle logs its "Polling" line first and once; after it come
    only other log lines, notifications, and Helix requests that carry the
    headers the cycle was given.  A cycle never asks for a token, never
    replies to a chat and never writes the watchlist file. *)
Theorem cycle_events_shape up h s :
  ∃ rest,
    emitted (monitor_cycle up h s) = Log LogPolling :: rest ∧
    Forall (inside_cycle h) rest.
Proof. apply monitor_cycle_shape. Qed.

Lemma monitor_loop_counts h (ticks : list upstream) s :
  let evs := emitted (for_each ticks (λ up, monitor_cycle up h) s) in
  polls_started evs = length ticks ∧ token_requests evs = 0.
Proof.
  revert s. induction ticks as [|up ticks IH]; intros s; [done|].
  cbv zeta. run.
  pose proof (monitor_cycle_returns up h s) as Hret.
  destruct (monitor_cycle_shape up h s) as (rest & Hev & Hin).
  destruct (monitor_cycle up h s) as [o s1 evs1]. cbn in Hret, Hev.
  subst o evs1. run. unfold prepend. cbn [emitted].
  destruct (IH s1) as [IHp IHt].
  destruct (inside_cycle_counts h rest Hin) as [Hp Ht].
  change (Log LogPolling :: rest) with ([Log LogPolling] ++ rest).
  rewrite !polls_started_app, !token_requests_app, IHp, IHt, Hp, Ht.
  done.
Qed.

(** X12.  Once the initial token has been granted, the thread starts one
    cycle per tick whatever Twitch answers afterwards, is still running
    after the last one, and has asked for a token exactly once: the token
    is never refreshed. *)
Theorem monitor_polls_every_tick_with_one_token
    CLIENT_ID up0 ticks s token :
  oauth2_token up0 = Answer token →
  let r := monitor_twitch CLIENT_ID up0 ticks s in
  result r = Ok () ∧
  polls_started (emitted r) = length ticks ∧
  token_requests (emitted r) = 1.
Proof.
  intros Htok r. unfold r, monitor_twitch. run.
  rewrite (run_get_app_token_answer _ token) by done. run.
  set (h := Headers CLIENT_ID ("Bearer " +:+ token)).
  destruct (monitor_loop_counts h ticks s) as [Hp Ht].
  unfold prepend. cbn [result emitted]. split_and!.
  - apply monitor_loop_keeps_running.
  - rewrite polls_started_app, Hp. done.
  - rewrite token_requests_app, Ht. done.
Qed.

End shape.

(** ** To whom a cycle speaks *)

Lemma filter_none {B} (P : B → Prop) `{!∀ x, Decision (P x)} (l : list B) :
  Forall (λ x, ¬ P x) l → filter P l = [].
Proof.
  induction 1 as [|x l Hx _ IH]; [done|]. by rewrite filter_cons_False.
Qed.

Lemma filter_bind_none {A B} (P : B → Prop) `{!∀ x, Decision (P x)}
    (f : A → list B) (l : list A) :
  (∀ x, x ∈ l → filter P (f x) = []) → filter P (l ≫= f) = [].
Proof.
  induction l as [|x l IH]; intros Hf; [done|].
  rewrite bind_cons, filter_app, Hf by left. cbn.
  apply IH. intros. apply Hf. by right.
Qed.

(** Among the parts of a list without duplicates, only the part of [a] can
    contribute: at most one element in all if that part gives at most one. *)
Lemma length_filter_bind_one {A B} `{!EqDecision A} (P : B → Prop)
    `{!∀ x, Decision (P x)} (f : A → list B) (l : list A) (a : A) :
  NoDup l →
  (∀ x, x ∈ l → x ≠ a → filter P (f x) = []) →
  length (filter P (f a)) ≤ 1 →
  length (filter P (l ≫= f)) ≤ 1.
Proof.
  intros Hl Hother Ha. induction Hl as [|x l Hx Hl IH]; [cbn; lia|].
  rewrite bind_cons, filter_app, length_app.
  destruct (decide (x = a)) as [->|Hne].
  - rewrite (filter_bind_none P f l); [cbn; lia|].
    intros y Hy. apply Hother; [by right|]. by intros ->.
  - rewrite (Hother x) by (done || by left). cbn.
    apply IH. intros y Hy. apply Hother. by right.
Qed.

Section audience.
Context `{PyStr}.

Lemma channel_notifications_about m ld ls w chat_id username :
  Forall (about chat_id username)
         (notifications (channel_events m ld ls w chat_id username)) ∧
  length (notifications (channel_events m ld ls w chat_id username)) ≤ 1.
Proof.
  rewrite notifications_channel_events.
  destruct (truthy _) as [uid|]; [|split; [constructor|cbn; lia]].
  destruct (ld !! uid), (default false (ls !! uid));
    split; repeat constructor; cbn; lia.
Qed.

Lemma diff_notifications_once m ld ls (w : gmap string entry)
    chat_id username :
  NoDup (channels (entry_of w chat_id)) →
  length (filter (about chat_id username)
                 (notifications (diff_events m ld ls w))) ≤ 1.
Proof.
  intros Hnd. unfold diff_events. rewrite notifications_bind.
  apply (length_filter_bind_one _ _ _ (chat_id, entry_of w chat_id));
    [apply NoDup_map_to_list| |].
  - intros [chat' data'] Hin%elem_of_map_to_list Hne.
    rewrite notifications_bind. apply filter_bind_none. intros u _.
    apply filter_none.
    destruct (channel_notifications_about m ld ls w chat' u) as [Hab _].
    eapply Forall_impl; [exact Hab|]. intros n [Hc _] [Hc' _].
    apply Hne. assert (chat' = chat_id) as -> by congruence.
    f_equal. unfold entry_of. by rewrite Hin.
  - rewrite notifications_bind.
    apply (length_filter_bind_one _ _ _ username); [done| |].
    + intros u _ Hne. apply filter_none.
      destruct (channel_notifications_about m ld ls w chat_id u) as [Hab _].
      eapply Forall_impl; [exact Hab|]. intros n [_ Hu] [_ Hu'].
      apply Hne. congruence.
    + etrans; [apply length_filter|].
      apply channel_notifications_about.
Qed.

(** X13.  At most once per pair: when a subscriber's list has no repeated
    name, a cycle sends that subscriber at most one notification about any
    given name. *)
Theorem cycle_notifies_a_pair_at_most_once up h s chat_id username :
  NoDup (channels (entry_of (watchlists s) chat_id)) →
  length (filter (about chat_id username)
                 (notifications (emitted (monitor_cycle up h s)))) ≤ 1.
Proof.
  intros Hnd.
  destruct (result (resolve_and_poll up h s)) as [[m ld]|e] eqn:Hres.
  - destruct (monitor_cycle_notifications up h s m ld Hres) as (-> & _).
    by apply diff_notifications_once.
  - pose proof (resolve_and_poll_frame up h s) as Hf. cbv zeta in Hf.
    destruct (resolve_and_poll up h s) as [o s1 evs1] eqn:E.
    cbn in Hres, Hf. subst o. destruct Hf as (_ & _ & _ & Hn).
    rewrite (run_monitor_cycle_raise _ _ _ _ _ _ E). cbn.
    rewrite notifications_cons, notifications_app, Hn.
    unfold notifications. cbn. lia.
Qed.

(** X14.  A cycle speaks to watchers only: every notification it sends goes
    to a subscriber of the store, is about a name on that subscriber's
    list, and is addressed to that subscriber's Apprise URLs as well; it is
    either a went-live notification whose body carries the stream that the
    poll returned for the id of the name, or a went-offline one. *)
Theorem cycle_notifies_watchers_only up h s :
  Forall (λ n, ∃ data username,
            watchlists s !! n_chat n = Some data ∧
            username ∈ channels data ∧
            n_extra n = apprise_urls data ∧
            ((n_title n = NowLive username ∧
              ∃ m ld uid st,
                result (resolve_and_poll up h s) = Ok (m, ld) ∧
                truthy (m !! lower username) = Some uid ∧
                ld !! uid = Some st ∧
                n_body n = StreamBody st username) ∨
             (n_title n = GoneOffline username ∧
              n_body n = OfflineBody username)))
         (notifications (emitted (monitor_cycle up h s))).
Proof.
  destruct (result (resolve_and_poll up h s)) as [[m ld]|e] eqn:Hres.
  - destruct (monitor_cycle_notifications up h s m ld Hres) as (-> & _).
    apply Forall_forall. intros n Hn.
    apply elem_of_notifications_diff in Hn
      as (chat_id & data & username & Hw & Hu & Hn).
    rewrite notifications_channel_events in Hn.
    destruct (truthy (m !! lower username)) as [uid|] eqn:Huid;
      [|by apply elem_of_nil in Hn].
    assert (Hx : extra_urls_of (watchlists s) chat_id = apprise_urls data)
      by (unfold extra_urls_of; by rewrite Hw).
    destruct (ld !! uid) as [st|] eqn:Hld;
      destruct (default false (live_status s !! uid));
      try (by apply elem_of_nil in Hn);
      apply list_elem_of_singleton in Hn; subst n; cbn;
      exists data, username; split_and!; try done.
    + left. split; [done|]. by exists m, ld, uid, st.
    + by right.
  - pose proof (resolve_and_poll_frame up h s) as Hf. cbv zeta in Hf.
    destruct (resolve_and_poll up h s) as [o s1 evs1] eqn:E.
    cbn in Hres, Hf. subst o. destruct Hf as (_ & _ & _ & Hn).
    rewrite (run_monitor_cycle_raise _ _ _ _ _ _ E). cbn.
    rewrite notifications_cons, notifications_app, Hn.
    unfold notifications. cbn. constructor.
Qed.

End audience.

(** ** The commands, one by one *)

Lemma list_remove_first_snoc (x : string) (l : list string) :
  x ∉ l → list_remove_first x (l ++ [x]) = l.
Proof.
  induction l as [|y l IH]; intros Hx; cbn.
  - by rewrite bool_decide_eq_true_2.
  - rewrite bool_decide_eq_false_2 by (intros ->; apply Hx; by left).
    rewrite IH; [done|]. intros ?. apply Hx. by right.
Qed.

Lemma not_elem_of_list_remove_first (x : string) (l : list string) :
  NoDup l → x ∉ list_remove_first x l.
Proof.
  induction 1 as [|y l Hy Hl IH]; cbn; [apply not_elem_of_nil|].
  case_bool_decide as Hxy; [by subst|].
  intros [->|?]%elem_of_cons; [done|by apply IH].
Qed.

Lemma elem_of_list_remove_first_ne (x y : string) (l : list string) :
  y ≠ x → y ∈ list_remove_first x l ↔ y ∈ l.
Proof.
  intros Hne. induction l as [|z l IH]; cbn; [done|].
  case_bool_decide as Hz.
  - subst z. rewrite elem_of_cons. split; [by right|].
    by intros [?|?].
  - rewrite !elem_of_cons, IH. done.
Qed.

Lemma setdefault_alt chat_id (w : gmap string entry) :
  <[chat_id := entry_of w chat_id]> w = setdefault chat_id w.
Proof.
  unfold setdefault, entry_of.
  destruct (w !! chat_id) as [d|] eqn:E; cbn; [by apply insert_id|done].
Qed.

Lemma start_registered u s :
  chat_of u ∈ dom (watchlists s) →
  start u s
  = Run (Ok ()) s [Log (LogStarted (name_of u) (chat_of u));
                   Reply (chat_of u) Welcome].
Proof.
  intros Hin. unfold start. run. rewrite bool_decide_eq_true_2 by done.
  by run.
Qed.

(** X15.  [/start] registers the chat without touching anybody's entry: the
    chat has an entry afterwards, every entry that existed is what it was,
    and a second [/start] changes nothing and writes nothing. *)
Theorem start_registers_once u s :
  let r := start u s in
  chat_of u ∈ dom (watchlists (final r)) ∧
  (∀ chat_id data, watchlists s !! chat_id = Some data →
                   watchlists (final r) !! chat_id = Some data) ∧
  start u (final r)
  = Run (Ok ()) (final r) [Log (LogStarted (name_of u) (chat_of u));
                           Reply (chat_of u) Welcome].
Proof.
  cbv zeta. destruct (decide (chat_of u ∈ dom (watchlists s))) as [Hin|Hnin].
  { rewrite start_registered by done. cbn.
    split_and!; [done..|by apply start_registered]. }
  assert (Hr : start u s
               = Run (Ok ())
                     (set_watchlist_file
                        (<[chat_of u := empty_entry]> (watchlists s))
                        (set_watchlists (<[chat_of u := empty_entry]>) s))
                     [Save (<[chat_of u := empty_entry]> (watchlists s));
                      Log (LogStarted (name_of u) (chat_of u));
                      Reply (chat_of u) Welcome]).
  { unfold start. run. rewrite bool_decide_eq_false_2 by done. by run. }
  rewrite Hr. cbn [final].
  assert (Hdom : chat_of u ∈ dom (<[chat_of u := empty_entry]> (watchlists s)))
    by (rewrite dom_insert_L; set_solver).
  split_and!; [done| |by apply start_registered].
  intros chat_id data Hd. cbn. rewrite lookup_insert_ne; [done|].
  intros <-. apply Hnin, elem_of_dom. eauto.
Qed.

Section commands.
Context `{PyStr}.

(** X16.  A command called with no argument or with more than one answers
    with its usage line and does nothing else: [/add], [/remove] and
    [/rmapprise] leave the whole state as it is. *)
Theorem wrong_arity_shows_usage CLIENT_ID up u args s :
  length args ≠ 1 →
  add_channel CLIENT_ID up u args s
  = Run (Ok ()) s [Reply (chat_of u) UsageAdd] ∧
  remove_channel u args s
  = Run (Ok ()) s [Reply (chat_of u) UsageRemove] ∧
  remove_apprise u args s
  = Run (Ok ()) s [Reply (chat_of u) UsageRmApprise].
Proof.
  intros Hlen. destruct args as [|arg [|arg' args]]; [|done|];
    unfold add_channel, remove_channel, remove_apprise; by run.
Qed.

Lemma run_remove_channel_present u arg s data :
  watchlists s !! chat_of u = Some data →
  lower arg ∈ channels data →
  let w' := <[chat_of u := Entry (list_remove_first (lower arg)
                                                    (channels data))
                                 (apprise_urls data)]> (watchlists s) in
  remove_channel u [arg] s
  = Run (Ok ()) (set_watchlist_file w' (set_watchlists (λ _, w') s))
        [Save w'; Log (LogRemoved (name_of u) (chat_of u) (lower arg));
         Reply (chat_of u) (Removed (lower arg))].
Proof.
  intros Hw Hin w'. unfold remove_channel. run. rewrite Hw. run.
  rewrite bool_decide_eq_true_2 by done. run. by destruct s.
Qed.

(** X17.  [/remove] of a name that is on the subscriber's list, the list
    having no repeated name: afterwards the name is not on the list, every
    other name is on it exactly if it was, the subscriber's Apprise URLs
    and everybody else's entries are what they were, and the file holds the
    new store. *)
Theorem remove_channel_removes u arg s data :
  watchlists s !! chat_of u = Some data →
  lower arg ∈ channels data →
  NoDup (channels data) →
  let r := remove_channel u [arg] s in
  let after := entry_of (watchlists (final r)) (chat_of u) in
  (lower arg ∉ channels after) ∧
  (∀ c, c ≠ lower arg → c ∈ channels after ↔ c ∈ channels data) ∧
  apprise_urls after = apprise_urls data ∧
  (∀ chat_id, chat_id ≠ chat_of u →
              watchlists (final r) !! chat_id = watchlists s !! chat_id) ∧
  watchlist_file (final r) = Some (watchlists (final r)).
Proof.
  intros Hw Hin Hnd r after. unfold after, r.
  rewrite (run_remove_channel_present u arg s data) by done.
  cbn [final]. unfold entry_of. cbn. rewrite lookup_insert_eq. cbn.
  split_and!; [|intros c Hc|done|intros k Hk|done].
  - by apply not_elem_of_list_remove_first.
  - by apply elem_of_list_remove_first_ne.
  - by rewrite lookup_insert_ne.
Qed.

(** X18.  [/remove] of a name that is not on the subscriber's list (or by
    somebody without an entry) says so and changes nothing. *)
Theorem remove_absent_channel_is_noop u arg s :
  lower arg ∉ channels (entry_of (watchlists s) (chat_of u)) →
  remove_channel u [arg] s
  = Run (Ok ()) s [Reply (chat_of u) (NotInWatchlist (lower arg))].
Proof.
  intros Hnin. unfold remove_channel, entry_of in *. run.
  destruct (watchlists s !! chat_of u) as [d|]; run; [|done].
  rewrite bool_decide_eq_false_2 by done. by run.
Qed.

(** X19.  [/add] of a new name followed by [/remove] of it gives back the
    store: all entries are what they were, except that a subscriber who had
    no entry now has an empty one.  This holds whatever Twitch answers to
    the immediate check. *)
Theorem add_then_remove_restores_store CLIENT_ID up u arg s :
  lower arg ∉ channels (entry_of (watchlists s) (chat_of u)) →
  let s1 := final (add_channel CLIENT_ID up u [arg] s) in
  watchlists (final (remove_channel u [arg] s1))
  = setdefault (chat_of u) (watchlists s).
Proof.
  intros Hnew s1. unfold s1. rewrite run_add_channel_new by done.
  set (w' := with_channels _ _ _). set (s0 := set_watchlist_file w' _).
  destruct (live_check_on_add_frame CLIENT_ID up u (lower arg) s0)
    as (_ & Hw & _).
  unfold prepend. cbn [final].
  set (s2 := final (live_check_on_add CLIENT_ID up u (lower arg) s0)) in *.
  assert (Hl : watchlists s2 !! chat_of u
               = Some (Entry (channels (entry_of (watchlists s) (chat_of u))
                              ++ [lower arg])
                             (apprise_urls
                                (entry_of (watchlists s) (chat_of u))))).
  { rewrite Hw. cbn. unfold w', with_channels. apply lookup_insert_eq. }
  rewrite (run_remove_channel_present u arg s2 _ Hl)
    by (cbn; apply elem_of_app; right; by left).
  cbn. rewrite list_remove_first_snoc by done.
  rewrite Hw. cbn. unfold w', with_channels. rewrite insert_insert_eq.
  rewrite <- setdefault_alt. f_equal. by destruct (entry_of _ _).
Qed.

(** X20.  After [/add] of a new name, [/list] shows the old list with the
    new name at its end. *)
Theorem list_shows_added_channel CLIENT_ID up u arg s :
  lower arg ∉ channels (entry_of (watchlists s) (chat_of u)) →
  let s1 := final (add_channel CLIENT_ID up u [arg] s) in
  let chans := channels (entry_of (watchlists s) (chat_of u))
               ++ [lower arg] in
  list_channels u s1
  = Run (Ok ()) s1
        [Log (LogRequestedWatchlist (name_of u) (chat_of u) chans);
         Reply (chat_of u) (YourWatchlist chans)].
Proof.
  intros Hnew s1 chans. unfold s1. rewrite run_add_channel_new by done.
  set (w' := with_channels _ _ _). set (s0 := set_watchlist_file w' _).
  destruct (live_check_on_add_frame CLIENT_ID up u (lower arg) s0)
    as (_ & Hw & _).
  unfold prepend. cbn [final].
  set (s2 := final (live_check_on_add CLIENT_ID up u (lower arg) s0)) in *.
  unfold list_channels. run. rewrite Hw. cbn [watchlists s0 set_watchlists
    set_watchlist_file]. unfold w', with_channels. rewrite lookup_insert_eq.
  cbn [channels]. fold chans.
  rewrite bool_decide_eq_false_2 by (unfold chans; by destruct (channels _)).
  by run.
Qed.

End commands.

Section apprise_commands.
Context `{PyStr}.

(** X21.  [/rmapprise n] with [n] between 1 and the number of saved URLs
    removes the [n]-th URL and no other: the reply names the URL that was at
    that position, the list afterwards is the old one without that
    position, the channels are untouched, and the file holds the new
    store. *)
Theorem remove_apprise_removes_nth u arg s index :
  let urls := extra_urls_of (watchlists s) (chat_of u) in
  py_int arg = Some index →
  (1 ≤ index ≤ Z.of_nat (length urls))%Z →
  let r := remove_apprise u [arg] s in
  let i := Z.to_nat (index - 1) in
  ∃ url,
    urls !! i = Some url ∧
    result r = Ok () ∧
    emitted r = [Save (watchlists (final r));
                 Log (LogRemovedUrl (chat_of u) url);
                 Reply (chat_of u) (RemovedUrl url)] ∧
    apprise_urls (entry_of (watchlists (final r)) (chat_of u))
    = delete i urls ∧
    channels (entry_of (watchlists (final r)) (chat_of u))
    = channels (entry_of (watchlists s) (chat_of u)) ∧
    watchlist_file (final r) = Some (watchlists (final r)).
Proof.
  intros urls Hint Hrange r i. unfold r, remove_apprise. run. fold urls.
  rewrite Hint. run.
  rewrite bool_decide_eq_false_2 by lia. run. fold i.
  destruct (lookup_lt_is_Some_2 urls i) as [url Hurl]; [unfold i; lia|].
  exists url. rewrite Hurl. run. unfold subscript.
  destruct (watchlists s !! chat_of u) as [d|] eqn:E.
  2: { unfold urls, extra_urls_of in Hurl. by rewrite E in Hurl. }
  run. cbn. unfold entry_of. cbn. rewrite lookup_insert_eq, E. done.
Qed.

(** X22.  [/rmapprise] with something that is not a number, or with a
    number below 1 or above the number of saved URLs, removes nothing: the
    state is what it was and the only event is the reply that says which of
    the two it was. *)
Theorem remove_apprise_rejects_bad_number u arg s :
  let urls := extra_urls_of (watchlists s) (chat_of u) in
  (py_int arg = None ∨
   ∃ index, py_int arg = Some index ∧
            (index < 1 ∨ index > Z.of_nat (length urls))%Z) →
  remove_apprise u [arg] s
  = Run (Ok ()) s
        [Reply (chat_of u)
               (match py_int arg with
                | Some _ => InvalidNumber
                | None => NotANumber
                end)].
Proof.
  intros urls Hbad. unfold remove_apprise. run. fold urls.
  destruct Hbad as [Hnone|(index & Hint & Hrange)].
  - rewrite Hnone. by run.
  - rewrite Hint. run. rewrite bool_decide_eq_true_2 by done. by run.
Qed.

(** X23.  Answering yes while a URL is pending saves it: the URL is on the
    subscriber's list afterwards, the channels are untouched, the file
    holds the store; and answering yes once more with the same URL does
    nothing at all, without even a reply. *)
Theorem confirm_apprise_saves_once u text pending url s :
  lower (strip text) ∈ ["yes"; "y"] →
  truthy pending = Some url →
  let r := confirm_apprise u text pending s in
  url ∈ apprise_urls (entry_of (watchlists (final r)) (chat_of u)) ∧
  channels (entry_of (watchlists (final r)) (chat_of u))
  = channels (entry_of (watchlists s) (chat_of u)) ∧
  (url ∉ apprise_urls (entry_of (watchlists s) (chat_of u)) →
   watchlist_file (final r) = Some (watchlists (final r))) ∧
  confirm_apprise u text pending (final r) = Run (Ok ()) (final r) [].
Proof.
  intros Hyes Hurl r.
  assert (Hagain : ∀ s',
    url ∈ apprise_urls (entry_of (watchlists s') (chat_of u)) →
    confirm_apprise u text pending s' = Run (Ok ()) s' []).
  { intros s' Hin. unfold confirm_apprise.
    rewrite bool_decide_eq_true_2 by done. rewrite Hurl. run.
    unfold subscript. cbn [watchlists set_watchlists].
    rewrite setdefault_lookup. run.
    rewrite bool_decide_eq_false_2 by (intros Hn; by apply Hn). run.
    f_equal. apply set_watchlists_id. unfold entry_of in Hin.
    destruct (watchlists s' !! chat_of u) as [d|] eqn:E.
    - by eapply setdefault_present.
    - cbn in Hin. by apply elem_of_nil in Hin. }
  destruct (decide (url ∈ apprise_urls (entry_of (watchlists s) (chat_of u))))
    as [Hin|Hnin].
  { unfold r. rewrite (Hagain s Hin). cbn [final].
    split_and!; [done..|by apply Hagain]. }
  assert (Hr : r = Run (Ok ())
    (set_watchlist_file
       (<[chat_of u := Entry (channels (entry_of (watchlists s) (chat_of u)))
                            (apprise_urls (entry_of (watchlists s) (chat_of u))
                             ++ [url])]> (watchlists s))
       (set_watchlists (λ _,
          <[chat_of u := Entry (channels (entry_of (watchlists s) (chat_of u)))
                            (apprise_urls (entry_of (watchlists s) (chat_of u))
                             ++ [url])]> (watchlists s)) s))
    [Save (<[chat_of u := Entry (channels (entry_of (watchlists s) (chat_of u)))
                            (apprise_urls (entry_of (watchlists s) (chat_of u))
                             ++ [url])]> (watchlists s));
     Log (LogSavedUrl (chat_of u) url); Reply (chat_of u) SavedUrl]).
  { unfold r, confirm_apprise.
    rewrite bool_decide_eq_true_2 by done. rewrite Hurl. run.
    unfold subscript. cbn [watchlists set_watchlists].
    rewrite setdefault_lookup. run.
    rewrite bool_decide_eq_true_2 by done. run.
    cbn [watchlists set_watchlists]. rewrite insert_setdefault.
    destruct s as [ls c w f]. unfold set_watchlists, set_watchlist_file. cbn.
    by rewrite insert_setdefault. }
  assert (Hafter : entry_of (watchlists (final r)) (chat_of u)
    = Entry (channels (entry_of (watchlists s) (chat_of u)))
            (apprise_urls (entry_of (watchlists s) (chat_of u)) ++ [url])).
  { rewrite Hr. cbn. unfold entry_of at 1. by rewrite lookup_insert_eq. }
  split_and!.
  - rewrite Hafter. cbn. apply elem_of_app. right. by left.
  - by rewrite Hafter.
  - intros _. by rewrite Hr.
  - apply Hagain. rewrite Hafter. cbn. apply elem_of_app. right. by left.
Qed.

(** X24.  Any answer other than yes or y, and a yes with no (or an empty)
    pending URL, saves nothing: the state is what it was and the only event
    is the reply. *)
Theorem confirm_apprise_declined u text pending s :
  lower (strip text) ∉ ["yes"; "y"] ∨ truthy pending = None →
  confirm_apprise u text pending s
  = Run (Ok ()) s
        [Reply (chat_of u)
               (if bool_decide (lower (strip text) ∈ ["yes"; "y"])
                then NoPendingUrl else NotSaved)].
Proof.
  intros Hno. unfold confirm_apprise. case_bool_decide as Hyes; run.
  - destruct Hno as [?|Hp]; [done|]. rewrite Hp. by run.
  - done.
Qed.

(** The immediate check sends nothing and seeds nothing, or sends one
    "already live" notification to the caller and sets one id to true. *)
Lemma live_check_on_add_outcome CLIENT_ID up u channel s :
  let r := live_check_on_add CLIENT_ID up u channel s in
  (notifications (emitted r) = [] ∧ live_status (final r) = live_status s) ∨
  ∃ n uid,
    notifications (emitted r) = [n] ∧
    n_chat n = chat_of u ∧ n_title n = AlreadyLive channel ∧
    live_status (final r) = <[uid := true]> (live_status s).
Proof.
  unfold live_check_on_add. run.
  destruct (oauth2_token up) as [token|e] eqn:Htok.
  2: { rewrite (run_get_app_token_failure _ e) by done. run. by left. }
  rewrite (run_get_app_token_answer _ token) by done. run.
  set (h := Headers CLIENT_ID ("Bearer " +:+ token)).
  pose proof (get_user_ids_frame up h [channel] s) as Hu. cbv zeta in Hu.
  destruct (get_user_ids up h [channel] s) as [[m|e] s1 evs1]; cbn in Hu;
    destruct Hu as (Hls & _ & _ & Hn & _); run.
  2: { left. cbn. by rewrite !notifications_cons, !notifications_app, Hn. }
  destruct (truthy (m !! channel)) as [uid|]; run.
  2: { left. cbn. by rewrite !notifications_cons, ?app_nil_r, Hn. }
  pose proof (get_live_streams_frame up h [uid] s1) as Hl.
  destruct (get_live_streams up h [uid] s1) as [[ld|e] s2 evs2]; cbn in Hl;
    destruct Hl as [-> Hn2]; run.
  2: { left. cbn.
       by rewrite !notifications_cons, !notifications_app, Hn, Hn2. }
  destruct (ld !! uid) as [st|]; run.
  2: { left. cbn.
       by rewrite !notifications_cons, ?app_nil_r, !notifications_app,
                  Hn, Hn2. }
  right. eexists _, uid. cbn.
  rewrite !notifications_cons, !notifications_app, Hn, Hn2, Hls.
  split; [reflexivity|done].
Qed.

(** X25.  [/add] notifies and seeds together or not at all: either it sends
    no notification and leaves [live_status] as it is, or it sends exactly
    one notification, an "already live" one to the caller about the added
    name, and sets exactly one id to true in [live_status]. *)
Theorem add_channel_notifies_and_seeds_together CLIENT_ID up u args s :
  let r := add_channel CLIENT_ID up u args s in
  (notifications (emitted r) = [] ∧ live_status (final r) = live_status s) ∨
  ∃ n uid arg,
    args = [arg] ∧
    notifications (emitted r) = [n] ∧
    n_chat n = chat_of u ∧ n_title n = AlreadyLive (lower arg) ∧
    live_status (final r) = <[uid := true]> (live_status s).
Proof.
  destruct args as [|arg [|arg' args]];
    [left; unfold add_channel; by run| |left; unfold add_channel; by run].
  destruct (decide (lower arg
                    ∈ channels (entry_of (watchlists s) (chat_of u))))
    as [Hin|Hnew].
  { left. by rewrite run_add_channel_present. }
  rewrite run_add_channel_new by done.
  set (w' := with_channels _ _ _). set (s1 := set_watchlist_file w' _).
  destruct (live_check_on_add_outcome CLIENT_ID up u (lower arg) s1)
    as [[Hn Hls]|(n & uid & Hn & Hc & Ht & Hls)];
    unfold prepend; cbn [emitted final app].
  - left. by rewrite !notifications_cons, Hn.
  - right. exists n, uid, arg. by rewrite !notifications_cons, Hn.
Qed.

End apprise_commands.

Section idle.
Context `{PyStr}.

(** X26.  When nobody watches anything (no subscriber, or only empty
    lists), a cycle makes no request at all, sends nothing, and replaces
    [live_status] by the empty snapshot, whatever it held. *)
Theorem idle_cycle_clears_snapshot up h s :
  (∀ chat_id data, watchlists s !! chat_id = Some data →
                   channels data = []) →
  monitor_cycle up h s
  = Run (Ok ()) (set_live_status (λ _, ∅) s) [Log LogPolling].
Proof.
  intros Hidle.
  assert (Hall : all_channels (watchlists s) = ∅).
  { apply set_eq. intros name. rewrite elem_of_all_channels. split.
    - intros (chat_id & data & Hw & Hn). rewrite (Hidle _ _ Hw) in Hn.
      by apply elem_of_nil in Hn.
    - by intros ?%not_elem_of_empty. }
  assert (Hrp : resolve_and_poll up h s = Run (Ok (∅, ∅)) s []).
  { unfold resolve_and_poll. run. rewrite Hall, elements_empty.
    rewrite get_user_ids_cached by done. run.
    unfold cached_ids. by cbn [fmap list_fmap foldl]. }
  rewrite (run_monitor_cycle_ok _ _ _ _ _ _ _ Hrp). cbn [app].
  f_equal. f_equal. unfold diff_events. apply bind_all_nil.
  intros [chat_id data] Hin%elem_of_map_to_list.
  by rewrite (Hidle _ _ Hin).
Qed.

End idle.

(** ** The further properties at work *)

Module DemoMore.
Import Demo.

(** [carol] is cached; [alice] is looked up and found: [carol] keeps her
    id. *)
Lemma cache_is_append_only_witness :
  ({["carol" := "7"]} : gmap string string)
  ⊆ user_ids_cache
      (final (@get_user_ids ascii_str twitch_alice_live hdr ["alice"]
                (State ∅ {["carol" := "7"]} ∅ None))).
Proof.
  refine (@cache_is_append_only ascii_str twitch_alice_live hdr ["alice"]
            (State ∅ {["carol" := "7"]} ∅ None) _).
  intros data Hd. vm_compute in Hd. injection Hd as <-.
  intros u ->%list_elem_of_singleton. vm_compute. left.
Defined.

(** Asked for [Alice] and [ghost], the resolver returns [alice] only. *)
Lemma get_user_ids_returns_known_names_witness :
  "alice" ∈ (@lower ascii_str <$> ["Alice"; "ghost"]) ∧
  user_ids_cache
    (final (@get_user_ids ascii_str twitch_alice_live hdr ["Alice"; "ghost"]
              (fresh ∅))) !! "alice" = Some "1001".
Proof.
  apply (@get_user_ids_returns_known_names ascii_str twitch_alice_live hdr
           ["Alice"; "ghost"] (fresh ∅) {["alice" := "1001"]}).
  - vm_compute. reflexivity.
  - vm_compute. reflexivity.
Defined.

(** [alice] is cached: no request even though Twitch is unreachable. *)
Lemma get_user_ids_all_cached_is_silent_witness :
  let s := State ∅ {["alice" := "1001"]} ∅ None in
  @get_user_ids ascii_str twitch_down hdr ["Alice"] s
  = Run (Ok (cached_ids (user_ids_cache s) (@lower ascii_str <$> ["Alice"])))
        s [].
Proof.
  intros s.
  apply (@get_user_ids_all_cached_is_silent ascii_str twitch_down hdr
           ["Alice"] s).
  intros u ->%list_elem_of_singleton. apply elem_of_dom.
  exists "1001". vm_compute. reflexivity.
Defined.

(** The poll of [1001] leaves the state alone. *)
Lemma get_live_streams_keys_witness :
  final (get_live_streams twitch_alice_live hdr ["1001"] (fresh ∅))
  = fresh ∅.
Proof.
  apply (get_live_streams_keys twitch_alice_live hdr ["1001"] (fresh ∅)
           {["1001" := alice_stream]}).
  vm_compute. reflexivity.
Defined.

(** [/add Alice] on the empty snapshot leaves only true entries. *)
Lemma snapshot_holds_only_true_witness :
  all_true
    (live_status
       (final (@perform ascii_str "client"
                 (OpAdd twitch_alice_live me ["Alice"]) (fresh ∅)))).
Proof.
  apply (@snapshot_holds_only_true ascii_str).
  intros uid b Hl. vm_compute in Hl. discriminate Hl.
Defined.

(** [/add Alice] right after start-up keeps file and store together. *)
Lemma file_follows_store_witness :
  in_sync (final (@perform ascii_str "client"
                    (OpAdd twitch_down me ["Alice"]) (startup None))).
Proof.
  apply (@file_follows_store ascii_str). reflexivity.
Defined.

(** Token granted, then Twitch down for a tick and up for another: two
    cycles, one token. *)
Lemma monitor_polls_every_tick_with_one_token_witness :
  let r := @monitor_twitch ascii_str "client" twitch_alice_live
             [twitch_down; twitch_alice_live]
             (fresh (watching ["alice"])) in
  result r = Ok () ∧
  polls_started (emitted r) = 2 ∧
  token_requests (emitted r) = 1.
Proof.
  apply (@monitor_polls_every_tick_with_one_token ascii_str "client"
           twitch_alice_live [twitch_down; twitch_alice_live]
           (fresh (watching ["alice"])) "token").
  reflexivity.
Defined.

(** One notification about [alice] for the subscriber, not two. *)
Lemma cycle_notifies_a_pair_at_most_once_witness :
  length (filter (about "42" "alice")
            (notifications
               (emitted (@monitor_cycle ascii_str twitch_alice_live hdr
                           (fresh (watching ["alice"; "bob"])))))) ≤ 1.
Proof.
  apply (@cycle_notifies_a_pair_at_most_once ascii_str).
  vm_compute. apply NoDup_cons. split.
  - intros ?%list_elem_of_singleton. discriminate.
  - apply NoDup_singleton.
Defined.

(** [/add] without an argument. *)
Lemma wrong_arity_shows_usage_witness :
  @add_channel ascii_str "client" twitch_alice_live me []
    (fresh (watching ["alice"]))
  = Run (Ok ()) (fresh (watching ["alice"])) [Reply "42" UsageAdd].
Proof.
  apply (@wrong_arity_shows_usage ascii_str "client" twitch_alice_live me []
           (fresh (watching ["alice"]))).
  discriminate.
Defined.

(** [/remove Alice] from the list [alice], [bob]. *)
Lemma remove_channel_removes_witness :
  "alice" ∉ channels
              (entry_of
                 (watchlists
                    (final (@remove_channel ascii_str me ["Alice"]
                              (fresh (watching ["alice"; "bob"])))))
                 "42").
Proof.
  apply (@remove_channel_removes ascii_str me "Alice"
           (fresh (watching ["alice"; "bob"])) (Entry ["alice"; "bob"] [])).
  - vm_compute. reflexivity.
  - vm_compute. left.
  - cbn. apply NoDup_cons. split.
    + intros ?%list_elem_of_singleton. discriminate.
    + apply NoDup_singleton.
Defined.

(** [/remove carol] from the list [alice]. *)
Lemma remove_absent_channel_is_noop_witness :
  @remove_channel ascii_str me ["carol"] (fresh (watching ["alice"]))
  = Run (Ok ()) (fresh (watching ["alice"]))
        [Reply "42" (NotInWatchlist "carol")].
Proof.
  apply (@remove_absent_channel_is_noop ascii_str me "carol"
           (fresh (watching ["alice"]))).
  vm_compute. intros ?%list_elem_of_singleton. discriminate.
Defined.

(** [/add Bob] then [/remove Bob] on the list [alice]. *)
Lemma add_then_remove_restores_store_witness :
  watchlists
    (final (@remove_channel ascii_str me ["Bob"]
              (final (@add_channel ascii_str "client" twitch_down me ["Bob"]
                        (fresh (watching ["alice"]))))))
  = setdefault "42" (watching ["alice"]).
Proof.
  apply (@add_then_remove_restores_store ascii_str "client" twitch_down me
           "Bob" (fresh (watching ["alice"]))).
  vm_compute. intros ?%list_elem_of_singleton. discriminate.
Defined.

(** [/add Bob] then [/list]. *)
Lemma list_shows_added_channel_witness :
  emitted
    (@list_channels me
       (final (@add_channel ascii_str "client" twitch_down me ["Bob"]
                 (fresh (watching ["alice"])))))
  = [Log (LogRequestedWatchlist "dana" "42" ["alice"; "bob"]);
     Reply "42" (YourWatchlist ["alice"; "bob"])].
Proof.
  rewrite (@list_shows_added_channel ascii_str "client" twitch_down me "Bob"
             (fresh (watching ["alice"]))).
  - reflexivity.
  - vm_compute. intros ?%list_elem_of_singleton. discriminate.
Defined.

(** [/rmapprise 2] with two URLs saved. *)
Lemma remove_apprise_removes_nth_witness :
  ∃ url,
    ["json://a"; "json://b"] !! 1 = Some url ∧
    apprise_urls
      (entry_of
         (watchlists
            (final (@remove_apprise ascii_str me ["2"]
                      (fresh {["42" := Entry [] ["json://a"; "json://b"]]}))))
         "42")
    = ["json://a"].
Proof.
  destruct (@remove_apprise_removes_nth ascii_str me "2"
              (fresh {["42" := Entry [] ["json://a"; "json://b"]]}) 2)
    as (url & Hurl & _ & _ & Hafter & _).
  - reflexivity.
  - vm_compute. split; discriminate.
  - exists url. split; [exact Hurl|exact Hafter].
Defined.

(** [/rmapprise 3] with two URLs saved. *)
Lemma remove_apprise_rejects_bad_number_witness :
  @remove_apprise ascii_str me ["3"]
    (fresh {["42" := Entry [] ["json://a"; "json://b"]]})
  = Run (Ok ()) (fresh {["42" := Entry [] ["json://a"; "json://b"]]})
        [Reply "42" InvalidNumber].
Proof.
  apply (@remove_apprise_rejects_bad_number ascii_str me "3"
           (fresh {["42" := Entry [] ["json://a"; "json://b"]]})).
  right. exists 3%Z. split; [reflexivity|]. right. vm_compute. reflexivity.
Defined.

(** The answer [ Yes ] to a pending URL. *)
Lemma confirm_apprise_saves_once_witness :
  "json://a"
  ∈ apprise_urls
      (entry_of
         (watchlists
            (final (@confirm_apprise ascii_str me " Yes " (Some "json://a")
                      (fresh ∅))))
         "42").
Proof.
  apply (@confirm_apprise_saves_once ascii_str me " Yes " (Some "json://a")
           "json://a" (fresh ∅)).
  - vm_compute. left.
  - reflexivity.
Defined.

(** The answer [no]. *)
Lemma confirm_apprise_declined_witness :
  @confirm_apprise ascii_str me "no" (Some "json://a") (fresh ∅)
  = Run (Ok ()) (fresh ∅) [Reply "42" NotSaved].
Proof.
  apply (@confirm_apprise_declined ascii_str me "no" (Some "json://a")
           (fresh ∅)).
  left. vm_compute. intros Hin.
  apply elem_of_cons in Hin as [Hd|Hin]; [discriminate|].
  apply list_elem_of_singleton in Hin. discriminate.
Defined.

(** A subscriber with an empty list: the cycle forgets that [1001] was
    live. *)
Lemma idle_cycle_clears_snapshot_witness :
  live_status
    (final (@monitor_cycle ascii_str twitch_alice_live hdr
              (State {["1001" := true]} ∅ (watching []) None)))
  = ∅.
Proof.
  rewrite (@idle_cycle_clears_snapshot ascii_str twitch_alice_live hdr
             (State {["1001" := true]} ∅ (watching []) None)).
  - reflexivity.
  - intros chat_id data Hl. cbn [watchlists] in Hl. unfold watching in Hl.
    apply lookup_singleton_Some in Hl as [_ <-]. reflexivity.
Defined.

End DemoMore.
